(** * conversion_log_analyzer: the line classifier, the aggregator, the
      Markdown detailed report and the file scanner.

    Python [str] values are modelled as [string]s of 8-bit characters read
    as the code points U+0000..U+00FF; the character classes below are
    Python's on that range.  Python [int]s are [Z].  A Python [dict]
    (insertion ordered, unique keys) is an association list. *)

From Stdlib Require Import Bool Ascii String List ZArith NArith Lia.
From Stdlib Require Import Numbers.DecimalString.
From Stdlib Require Import Sorting.Sorted Sorting.Permutation.
Import ListNotations.

Open Scope list_scope.
Open Scope string_scope.

(* ================================================================== *)
(** ** Characters *)

Module Chars.

Definition code (c : ascii) : N := N_of_ascii c.

Definition between (lo hi : N) (c : ascii) : bool :=
  ((lo <=? code c) && (code c <=? hi))%N.

(** [str.isalnum] on one character. *)
Definition isalnum (c : ascii) : bool :=
  between 48 57 c || between 65 90 c || between 97 122 c
  || between 170 170 c || between 178 179 c || between 181 181 c
  || between 185 186 c || between 188 190 c
  || between 192 214 c || between 216 246 c || between 248 255 c.

(** The class [\w] of a [str] pattern: alphanumeric or underscore. *)
Definition is_word (c : ascii) : bool :=
  isalnum c || between 95 95 c.

(** [str.isspace] on one character, the class removed by [str.strip()]. *)
Definition isspace (c : ascii) : bool :=
  between 9 13 c || between 28 32 c || between 133 133 c
  || between 160 160 c.

(** Lower-casing of one character, used by [re.IGNORECASE]. *)
Definition tolower (c : ascii) : ascii :=
  if between 65 90 c || (between 192 222 c && negb (between 215 215 c))
  then ascii_of_N (code c + 32)
  else c.

(** Two characters are equal under [re.IGNORECASE]. *)
Definition ci_eqb (c d : ascii) : bool :=
  Ascii.eqb (tolower c) (tolower d).


End Chars.
Import Chars.

(* ================================================================== *)
(** ** Strings *)

Module Str.

Definition head (s : string) : option ascii :=
  match s with
  | EmptyString => None
  | String c _ => Some c
  end.

(** The last character of [s], or [d] when [s] is empty. *)
Fixpoint last_or (d : option ascii) (s : string) : option ascii :=
  match s with
  | EmptyString => d
  | String c s' => last_or (Some c) s'
  end.

Definition last (s : string) : option ascii := last_or None s.

Fixpoint all (f : ascii -> bool) (s : string) : bool :=
  match s with
  | EmptyString => true
  | String c s' => f c && all f s'
  end.

(** Equality of two strings under [re.IGNORECASE]. *)
Fixpoint ci_eq (s t : string) : bool :=
  match s, t with
  | EmptyString, EmptyString => true
  | String c s', String d t' => ci_eqb c d && ci_eq s' t'
  | _, _ => false
  end.

Definition is_empty (s : string) : bool :=
  match s with
  | EmptyString => true
  | String _ _ => false
  end.

(** [str.lstrip()], [str.rstrip()] and [str.strip()] without argument. *)
Fixpoint lstrip (s : string) : string :=
  match s with
  | EmptyString => EmptyString
  | String c s' => if isspace c then lstrip s' else s
  end.

Fixpoint rstrip (s : string) : string :=
  match s with
  | EmptyString => EmptyString
  | String c s' =>
      let r := rstrip s' in
      if is_empty r && isspace c then EmptyString else String c r
  end.

Definition strip (s : string) : string := rstrip (lstrip s).

(** Python truthiness of a [str]. *)
Definition truthy (s : string) : bool := negb (is_empty s).

(** [str(n)] and [f"{n}"] for an [int]. *)
Definition of_Z (n : Z) : string := NilZero.string_of_int (Z.to_int n).

(** Concatenation of a list of strings. *)
Fixpoint join (l : list string) : string :=
  match l with
  | [] => EmptyString
  | x :: l' => x ++ join l'
  end.

End Str.

(* ================================================================== *)
(** ** Exceptions *)

(** An exception derived from [Exception]; [exn_text] is [str(e)]. *)
Record exn : Type := Exn { exn_text : string }.

Inductive result (A : Type) : Type :=
  | Ok (a : A)
  | Raise (e : exn).
Arguments Ok {A} a.
Arguments Raise {A} e.

(* ================================================================== *)
(** ** The fragment of [re] used by the parser *)

Module Re.

(** Pattern items: a literal character, the assertion [\b], and the group
    [([^c]+)]: one or more characters other than [c], greedy, captured. *)
Inductive atom : Type :=
  | Lit (c : ascii)
  | Bound
  | CaptureNot (c : ascii).

Definition pattern : Type := list atom.

Fixpoint lits (s : string) : pattern :=
  match s with
  | EmptyString => []
  | String c s' => Lit c :: lits s'
  end.

Definition word_opt (c : option ascii) : bool :=
  match c with
  | None => false
  | Some c => is_word c
  end.

(** [\b] between the character before the position and the one at it. *)
Definition at_boundary (prev : option ascii) (s : string) : bool :=
  negb (Bool.eqb (word_opt prev) (word_opt (Str.head s))).

(** A successful match, with the text of group 1 when the group took part. *)
Record re_match : Type := MkMatch { group1 : option string }.

Section Greedy.
Variable c : ascii.
(** What follows the group in the pattern. *)
Variable k : option ascii -> string -> option string -> option re_match.

(** The repetition [[^c]+] with [taken] already consumed: it takes one
    more character, tries to go on, and falls back to the rest of the
    pattern when going on fails. *)
Fixpoint greedy_plus (taken : string) (s : string) : option re_match :=
  match s with
  | EmptyString => None
  | String d s' =>
      if ci_eqb d c then None
      else
        let taken' := taken ++ String d EmptyString in
        match greedy_plus taken' s' with
        | Some m => Some m
        | None => k (Some d) s' (Some taken')
        end
  end.
End Greedy.

(** Match pattern [p] at the start of [s]; [prev] is the character before
    [s] in the subject, [grp] the text of group 1 so far. *)
Fixpoint match_here (p : pattern) (prev : option ascii) (s : string)
    (grp : option string) : option re_match :=
  match p with
  | [] => Some (MkMatch grp)
  | Lit c :: p' =>
      match s with
      | EmptyString => None
      | String d s' =>
          if ci_eqb d c then match_here p' (Some d) s' grp else None
      end
  | Bound :: p' =>
      if at_boundary prev s then match_here p' prev s grp else None
  | CaptureNot c :: p' =>
      greedy_plus c (match_here p') EmptyString s
  end.

Fixpoint search_from (p : pattern) (prev : option ascii) (s : string)
    : option re_match :=
  match match_here p prev s None with
  | Some m => Some m
  | None =>
      match s with
      | EmptyString => None
      | String c s' => search_from p (Some c) s'
      end
  end.

(** [re.compile(p, re.IGNORECASE).search(s)]: the leftmost match. *)
Definition search (p : pattern) (s : string) : option re_match :=
  search_from p None s.

End Re.

(* ================================================================== *)
(** ** parser.py *)

Record LogEntry : Type := MkLogEntry {
  line_number : Z;
  message : string;
  level : string;
  step : option string
}.

Definition nl : string := String (ascii_of_N 10) EmptyString.

(** What a generator does when it is run to its end: the values it yields
    and the lines it prints, in order, and the exception that leaves it. *)
Inductive event (A : Type) : Type :=
  | Yield (a : A)
  | Print (text : string).
Arguments Yield {A} a.
Arguments Print {A} text.

Record gen (A : Type) : Type := MkGen {
  events : list (event A);
  raised : option exn
}.
Arguments MkGen {A} events raised.
Arguments events {A} g.
Arguments raised {A} g.

Fixpoint yields {A : Type} (l : list (event A)) : list A :=
  match l with
  | [] => []
  | Yield a :: l' => a :: yields l'
  | Print _ :: l' => yields l'
  end.

Fixpoint prints {A : Type} (l : list (event A)) : list string :=
  match l with
  | [] => []
  | Yield _ :: l' => prints l'
  | Print t :: l' => t :: prints l'
  end.

(** What reading a file through [open(filepath, 'r', encoding=...,
    errors='replace')] and [for line in f] gives: [open] raises, or the
    file gives lines until its end or until a read raises. *)
Record file_content : Type := MkFile {
  file_lines : list string;
  read_error : option exn
}.

Definition filesystem : Type := string -> string -> result file_content.

Module LogParser.
Import Re.

(** [r'\bERROR\b'], [r'\bWARNING\b'], [r'\bCRITICAL\b'] *)
Definition ERROR_PATTERN : pattern :=
  ([Bound] ++ lits "ERROR" ++ [Bound])%list.
Definition WARNING_PATTERN : pattern :=
  ([Bound] ++ lits "WARNING" ++ [Bound])%list.
Definition CRITICAL_PATTERN : pattern :=
  ([Bound] ++ lits "CRITICAL" ++ [Bound])%list.

(** [r'\[STEP:([^\]]+)\]'] *)
Definition STEP_PATTERN : pattern :=
  (lits "[STEP:" ++ [CaptureNot "]"] ++ lits "]")%list.

(** Truthiness of the result of [search]. *)
Definition found (o : option re_match) : bool :=
  match o with
  | Some _ => true
  | None => false
  end.

(** [m.group(1).strip()]; [None] has no [strip]. *)
Definition group1_strip (m : re_match) : result string :=
  match group1 m with
  | Some g => Ok (Str.strip g)
  | None => Raise (Exn "'NoneType' object has no attribute 'strip'")
  end.

Definition _parse_line (line : string) (line_number : Z)
    : result (option LogEntry) :=
  let level :=
    if found (search CRITICAL_PATTERN line) then Some "CRITICAL"
    else if found (search ERROR_PATTERN line) then Some "ERROR"
    else if found (search WARNING_PATTERN line) then Some "WARNING"
    else None in
  match level with
  | None => Ok None
  | Some level =>
      let mk step := Ok (Some (MkLogEntry line_number (Str.strip line) level step)) in
      match search STEP_PATTERN line with
      | Some step_match =>
          match group1_strip step_match with
          | Ok step => mk (Some step)
          | Raise e => Raise e
          end
      | None => mk None
      end
  end.

(** The loop [for line in f] of [parse_file]; [line_number] is the count
    of the lines read before. *)
Fixpoint parse_lines (lines : list string) (line_number : Z)
    (read_error : option exn) : gen LogEntry :=
  match lines with
  | [] => MkGen [] read_error
  | line :: rest =>
      let line_number := (line_number + 1)%Z in
      match _parse_line line line_number with
      | Raise e => MkGen [] (Some e)
      | Ok entry =>
          let g := parse_lines rest line_number read_error in
          match entry with
          | Some entry => MkGen (Yield entry :: events g) (raised g)
          | None => g
          end
      end
  end.

Section Files.
Variable fs : filesystem.

(** The [try] block of [parse_file]. *)
Definition parse_file_try (filepath encoding : string) : gen LogEntry :=
  match fs filepath encoding with
  | Raise e => MkGen [] (Some e)
  | Ok f => parse_lines (file_lines f) 0 (read_error f)
  end.

(** [parse_file]: the [try] block under [except Exception as e]. *)
Definition parse_file (filepath encoding : string) : gen LogEntry :=
  let g := parse_file_try filepath encoding in
  match raised g with
  | Some e =>
      MkGen (events g ++
             [Print ("Error reading file " ++ filepath ++ ": " ++ exn_text e)])%list
            None
  | None => g
  end.

Definition tag (filepath : string) (ev : event LogEntry)
    : event (string * LogEntry) :=
  match ev with
  | Yield entry => Yield (filepath, entry)
  | Print t => Print t
  end.

(** [parse_multiple_files]: an exception leaving [parse_file] would end
    the outer loop and leave this generator too. *)
Fixpoint parse_multiple_files (filepaths : list string) (encoding : string)
    : gen (string * LogEntry) :=
  match filepaths with
  | [] => MkGen [] None
  | filepath :: rest =>
      let g := parse_file filepath encoding in
      match raised g with
      | Some e => MkGen (map (tag filepath) (events g)) (Some e)
      | None =>
          let g' := parse_multiple_files rest encoding in
          MkGen (map (tag filepath) (events g) ++ events g')%list (raised g')
      end
  end.
End Files.

End LogParser.
Import LogParser.

(* ================================================================== *)
(** ** dict and collections.defaultdict *)

Module Dict.
Section Dict.
Context {V : Type}.

Definition dict : Type := list (string * V).

Fixpoint lookup (k : string) (d : dict) : option V :=
  match d with
  | [] => None
  | (k', v) :: d' => if String.eqb k k' then Some v else lookup k d'
  end.

(** [d[k] = v]: a present key keeps its place, a new one goes last. *)
Fixpoint set (k : string) (v : V) (d : dict) : dict :=
  match d with
  | [] => [(k, v)]
  | (k', v') :: d' =>
      if String.eqb k k' then (k', v) :: d' else (k', v') :: set k v d'
  end.

(** [d.get(k, default)] *)
Definition get (k : string) (default : V) (d : dict) : V :=
  match lookup k d with
  | Some v => v
  | None => default
  end.

Definition keys (d : dict) : list string := map fst d.
Definition values (d : dict) : list V := map snd d.
End Dict.
Arguments dict V : clear implicits.
End Dict.

Module DefaultDict.
Import Dict.
Section DefaultDict.
Context {V : Type}.

(** [defaultdict(factory)]; [default_factory] is what the factory
    returns. *)
Record defaultdict : Type := MkDD {
  default_factory : V;
  data : dict V
}.

Definition empty (factory : V) : defaultdict := MkDD factory [].

(** [d[k]]: a missing key is first stored with the factory's value. *)
Definition getitem (k : string) (d : defaultdict) : V * defaultdict :=
  match lookup k (data d) with
  | Some v => (v, d)
  | None =>
      (default_factory d,
       MkDD (default_factory d) (set k (default_factory d) (data d)))
  end.

(** [d[k] = v] *)
Definition setitem (k : string) (v : V) (d : defaultdict) : defaultdict :=
  MkDD (default_factory d) (set k v (data d)).

(** [d.get(k, default)]: inherited from [dict], it never calls the
    factory. *)
Definition get (k : string) (default : V) (d : defaultdict) : V :=
  Dict.get k default (data d).

(** [dict(d)] *)
Definition to_dict (d : defaultdict) : dict V := data d.
End DefaultDict.
Arguments defaultdict V : clear implicits.
End DefaultDict.

(* ================================================================== *)
(** ** analyzer.py *)

(** The dict [entry_data] that [add_entry] stores: the keys
    ['line_number'], ['message'], ['level'], ['step'], ['filename']. *)
Record entry_data : Type := MkEntryData {
  ed_line_number : Z;
  ed_message : string;
  ed_level : string;
  ed_step : option string;
  ed_filename : option string
}.

(** The dict returned by [get_summary]. *)
Record Summary : Type := MkSummary {
  sum_total_entries : Z;
  sum_level_counts : Dict.dict Z;
  sum_step_counts : Dict.dict (Dict.dict Z);
  sum_steps : list string
}.

(** Truthiness of an [Optional[str]]. *)
Definition truthy_opt (o : option string) : bool :=
  match o with
  | Some s => Str.truthy s
  | None => false
  end.

Module LogAnalyzer.
Import DefaultDict.

Record t : Type := MkAnalyzer {
  total_entries : Z;
  level_counts : defaultdict Z;
  step_counts : defaultdict (defaultdict Z);
  entries_by_level : defaultdict (list entry_data);
  entries_by_step : defaultdict (list entry_data)
}.

(** A method of the class: it gives a result and the object afterwards. *)
Definition method (A : Type) : Type := t -> A * t.

(** [defaultdict(int)], [defaultdict(lambda: defaultdict(int))],
    [defaultdict(list)] *)
Definition new_counts : defaultdict Z := empty 0%Z.
Definition new_step_counts : defaultdict (defaultdict Z) := empty new_counts.
Definition new_entries : defaultdict (list entry_data) := empty [].

Definition reset : method unit := fun _ =>
  (tt, MkAnalyzer 0 new_counts new_step_counts new_entries new_entries).

(** [LogAnalyzer()] *)
Definition init : t :=
  MkAnalyzer 0 new_counts new_step_counts new_entries new_entries.

(** [d[k] += 1] *)
Definition increment (k : string) (d : defaultdict Z) : defaultdict Z :=
  let (v, d) := getitem k d in
  setitem k (v + 1)%Z d.

(** [d[k].append(x)]: the list is changed in place, inside [d]. *)
Definition append_to (k : string) (x : entry_data)
    (d : defaultdict (list entry_data)) : defaultdict (list entry_data) :=
  let (l, d) := getitem k d in
  setitem k (l ++ [x])%list d.

(** [d[step][level] += 1]: the inner dict is changed in place, inside
    [d]. *)
Definition increment2 (step level : string)
    (d : defaultdict (defaultdict Z)) : defaultdict (defaultdict Z) :=
  let (inner, d) := getitem step d in
  setitem step (increment level inner) d.

Definition add_entry (entry : LogEntry) (filename : option string)
    : method unit := fun self =>
  let total_entries := (total_entries self + 1)%Z in
  let level_counts := increment (level entry) (level_counts self) in
  let entry_data :=
    MkEntryData (line_number entry) (message entry) (level entry)
                (step entry) filename in
  let entries_by_level :=
    append_to (level entry) entry_data (entries_by_level self) in
  let without_step :=
    MkAnalyzer total_entries level_counts (step_counts self)
               entries_by_level (entries_by_step self) in
  match step entry with
  | Some step =>
      if Str.truthy step then
        (tt, MkAnalyzer total_entries level_counts
               (increment2 step (level entry) (step_counts self))
               entries_by_level
               (append_to step entry_data (entries_by_step self)))
      else (tt, without_step)
  | None => (tt, without_step)
  end.


(** [{step: dict(counts) for step, counts in self.step_counts.items()}] *)
Definition step_frequency (self : t) : Dict.dict (Dict.dict Z) :=
  map (fun sc : string * defaultdict Z => (fst sc, to_dict (snd sc)))
      (data (step_counts self)).

Definition get_summary : method Summary := fun self =>
  (MkSummary (total_entries self)
             (to_dict (level_counts self))
             (step_frequency self)
             (Dict.keys (data (step_counts self))),
   self).

Definition get_level_frequency : method (Dict.dict Z) := fun self =>
  (to_dict (level_counts self), self).

Definition get_step_frequency : method (Dict.dict (Dict.dict Z)) :=
  fun self => (step_frequency self, self).

Definition get_entries_by_level (level : string)
    : method (list entry_data) := fun self =>
  (get level [] (entries_by_level self), self).

Definition get_entries_by_step (step : string)
    : method (list entry_data) := fun self =>
  (get step [] (entries_by_step self), self).

(** [sum(self.level_counts.values())] *)
Definition sum_level_counts_values (self : t) : Z :=
  fold_right Z.add 0%Z (Dict.values (data (level_counts self))).

(** The calls that change an analyzer. *)
Inductive op : Type :=
  | Add (entry : LogEntry) (filename : option string)
  | Reset.

Definition apply (o : op) (self : t) : t :=
  match o with
  | Add entry filename => snd (add_entry entry filename self)
  | Reset => snd (reset self)
  end.

(** The analyzer after each call of [ops], made in turn on [self]. *)
Fixpoint states (ops : list op) (self : t) : list t :=
  match ops with
  | [] => []
  | o :: ops' => apply o self :: states ops' (apply o self)
  end.

Definition run (ops : list op) (self : t) : t :=
  fold_left (fun s o => apply o s) ops self.

(** The records added by [ops] since its last [Reset], oldest first, as
    [add_entry] stores them. *)
Fixpoint added (acc : list entry_data) (ops : list op) : list entry_data :=
  match ops with
  | [] => acc
  | Add entry filename :: ops' =>
      added (acc ++ [MkEntryData (line_number entry) (message entry)
                       (level entry) (step entry) filename])%list ops'
  | Reset :: ops' => added [] ops'
  end.

End LogAnalyzer.

(* ================================================================== *)
(** ** reporter.py: MarkdownReporter.generate_detailed_report *)

Module MarkdownReporter.
Import LogAnalyzer.

(** [f.write(text)] on the text written so far. *)
Definition write (text : string) (f : string) : string := f ++ text.

(** [entries[:n]] *)
Definition slice_to {A : Type} (n : Z) (entries : list A) : list A :=
  if (0 <=? n)%Z then firstn (Z.to_nat n) entries
  else firstn (List.length entries - Z.to_nat (- n)) entries.

Definition len {A : Type} (l : list A) : Z := Z.of_nat (List.length l).

(** The body of [for entry in display_entries]. *)
Definition write_entry (f : string) (entry : entry_data) : string :=
  let f := write ("### Line " ++ Str.of_Z (ed_line_number entry)) f in
  let f :=
    match ed_filename entry with
    | Some filename =>
        if Str.truthy filename then write (" - " ++ filename) f else f
    | None => f
    end in
  let f :=
    match ed_step entry with
    | Some step =>
        if Str.truthy step then write (" - [STEP: " ++ step ++ "]") f else f
    | None => f
    end in
  let f := write (nl ++ nl) f in
  write ("```" ++ nl ++ ed_message entry ++ nl ++ "```" ++ nl ++ nl) f.

(** The body of [for level in ['CRITICAL', 'ERROR', 'WARNING']]. *)
Definition write_level (max_entries : Z) (st : string * t) (level : string)
    : string * t :=
  let (f, analyzer) := st in
  let (entries, analyzer) := get_entries_by_level level analyzer in
  match entries with
  | [] => (f, analyzer)
  | _ :: _ =>
      let f :=
        write ("## " ++ level ++ " Messages (" ++ Str.of_Z (len entries)
               ++ " total)" ++ nl ++ nl) f in
      let display_entries := slice_to max_entries entries in
      let f := fold_left write_entry display_entries f in
      let f :=
        if (len entries >? max_entries)%Z then
          write ("*...and " ++ Str.of_Z (len entries - max_entries)
                 ++ " more " ++ level ++ " messages*" ++ nl ++ nl) f
        else f in
      (f, analyzer)
  end.

(** The text written to the report file; [now] is
    [datetime.now().strftime('%Y-%m-%d %H:%M:%S')]. *)
Definition generate_detailed_report (now : string) (analyzer : t)
    (max_entries : Z) : string * t :=
  let f := EmptyString in
  let f := write ("# Detailed Log Analysis Report" ++ nl ++ nl) f in
  let f := write ("**Generated:** " ++ now ++ nl ++ nl) f in
  fold_left (write_level max_entries) ["CRITICAL"; "ERROR"; "WARNING"]
            (f, analyzer).


End MarkdownReporter.

(* ================================================================== *)
(** ** The specification's words *)

Module Spec.

(** The keyword [kw] occurs in [line] as a case-insensitive word-boundary
    match: some part of the line equals it up to case, with no word
    character just before and none just after. *)
Definition occurs_as_word (kw line : string) : Prop :=
  exists pre mid post,
    line = pre ++ mid ++ post
    /\ Str.ci_eq mid kw = true
    /\ Re.word_opt (Str.last pre) = false
    /\ Re.word_opt (Str.head post) = false.

(** The level of a line: the first of CRITICAL, ERROR, WARNING whose
    keyword occurs in it. *)
Definition level_is (line : string) (lv : option string) : Prop :=
  (occurs_as_word "CRITICAL" line /\ lv = Some "CRITICAL")
  \/ (~ occurs_as_word "CRITICAL" line /\ occurs_as_word "ERROR" line
      /\ lv = Some "ERROR")
  \/ (~ occurs_as_word "CRITICAL" line /\ ~ occurs_as_word "ERROR" line
      /\ occurs_as_word "WARNING" line /\ lv = Some "WARNING")
  \/ (~ occurs_as_word "CRITICAL" line /\ ~ occurs_as_word "ERROR" line
      /\ ~ occurs_as_word "WARNING" line /\ lv = None).

Definition not_bracket (c : ascii) : bool := negb (Ascii.eqb c "]").

(** [line] holds a tag [[STEP:<body>]] right after [pre]: the literal
    prefix up to case, a body that is not empty and has no [']'], and the
    closing bracket. *)
Definition step_tag (line pre body post : string) : Prop :=
  exists open,
    line = pre ++ open ++ body ++ "]" ++ post
    /\ Str.ci_eq open "[STEP:" = true
    /\ body <> EmptyString
    /\ Str.all not_bracket body = true.

(** The tag of [line] that starts first. *)
Definition first_step_tag (line body : string) : Prop :=
  exists pre post,
    step_tag line pre body post
    /\ forall pre' body' post',
         step_tag line pre' body' post' ->
         String.length pre <= String.length pre'.

Definition no_step_tag (line : string) : Prop :=
  forall pre body post, ~ step_tag line pre body post.

(** [s] is [t] without the whitespace at its two ends. *)
Definition trimmed (t s : string) : Prop :=
  exists l r,
    t = l ++ s ++ r
    /\ Str.all isspace l = true
    /\ Str.all isspace r = true
    /\ match Str.head s with Some c => isspace c = false | None => True end
    /\ match Str.last s with Some c => isspace c = false | None => True end.

(** [s] is [t] without the whitespace at its end only. *)
Definition right_trimmed (t s : string) : Prop :=
  exists r,
    t = s ++ r
    /\ Str.all isspace r = true
    /\ match Str.last s with Some c => isspace c = false | None => True end.


(** The third claim as the specification has it: the message of a
    classified line is the line without the whitespace at its end, the
    whitespace at its start being kept. *)
Definition C3_as_stated : Prop :=
  forall line n e,
    _parse_line line n = Ok (Some e) -> right_trimmed line (message e).

(** A stored record belongs to the level [k], to the step [k]. *)
Definition has_level (k : string) (ed : entry_data) : bool :=
  String.eqb (ed_level ed) k.

Definition has_step (k : string) (ed : entry_data) : bool :=
  match ed_step ed with
  | Some s => Str.truthy s && String.eqb s k
  | None => false
  end.

(** The analyzer's dicts have the factories [reset] gave them. *)
Definition factories_kept (self : LogAnalyzer.t) : Prop :=
  DefaultDict.default_factory (LogAnalyzer.level_counts self) = 0%Z
  /\ DefaultDict.default_factory (LogAnalyzer.entries_by_level self) = []
  /\ DefaultDict.default_factory (LogAnalyzer.entries_by_step self) = [].

End Spec.

(** Some [n] records of one level, for the examples. *)
Fixpoint sample_ops (level : string) (n : nat) : list LogAnalyzer.op :=
  match n with
  | O => []
  | S n' =>
      (sample_ops level n' ++
       [LogAnalyzer.Add
          (MkLogEntry (Z.of_nat n) (level ++ ": sample") level None)
          (Some "app.log")])%list
  end.

(** A file system with the single file [app.log]. *)
Definition sample_fs : filesystem := fun filepath _ =>
  if String.eqb filepath "app.log" then
    Ok (MkFile ["ok" ++ nl; "[STEP:Load] ERROR: failed" ++ nl;
                "WARNING: slow" ++ nl] None)
  else Raise (Exn ("[Errno 2] No such file or directory: '" ++ filepath ++ "'")).

(* ================================================================== *)
(** ** Terms for the aggregator's bookkeeping *)

Module Ledger.

(** The distinct strings of [l], each at the place of its first
    occurrence. *)
Definition note_key (acc : list string) (k : string) : list string :=
  if existsb (String.eqb k) acc then acc else (acc ++ [k])%list.

Definition first_seen (l : list string) : list string :=
  fold_left note_key l [].

(** The step a stored record is filed under: a step that is set and not
    empty. *)
Definition filed_step (ed : entry_data) : list string :=
  match ed_step ed with
  | Some s => if Str.truthy s then [s] else []
  | None => []
  end.

(** One of the three levels the reports show. *)
Definition reported_level (lv : string) : bool :=
  String.eqb lv "CRITICAL" || String.eqb lv "ERROR"
  || String.eqb lv "WARNING".

(** The number of elements of [l], as [len] gives it. *)
Definition count {A : Type} (l : list A) : Z := Z.of_nat (List.length l).

(** The inner dicts of [step_counts] have the factory [int]. *)
Definition inner_factories_kept (self : LogAnalyzer.t) : Prop :=
  DefaultDict.default_factory (LogAnalyzer.step_counts self)
  = LogAnalyzer.new_counts
  /\ forall k inner,
       Dict.lookup k (DefaultDict.data (LogAnalyzer.step_counts self))
       = Some inner ->
       DefaultDict.default_factory inner = 0%Z.

(** The analyzer [self] holds exactly the records [acc]: every count and
    every key of its dicts is the one [acc] gives. *)
Definition balanced (self : LogAnalyzer.t) (acc : list entry_data) : Prop :=
  LogAnalyzer.total_entries self = count acc
  /\ (forall k,
        DefaultDict.get k 0%Z (LogAnalyzer.level_counts self)
        = count (filter (Spec.has_level k) acc))
  /\ (forall s lv,
        DefaultDict.get lv 0%Z
          (DefaultDict.get s LogAnalyzer.new_counts
             (LogAnalyzer.step_counts self))
        = count (filter (fun ed => Spec.has_step s ed && Spec.has_level lv ed)
                        acc))
  /\ Dict.keys (DefaultDict.data (LogAnalyzer.level_counts self))
     = first_seen (map ed_level acc)
  /\ Dict.keys (DefaultDict.data (LogAnalyzer.entries_by_level self))
     = first_seen (map ed_level acc)
  /\ Dict.keys (DefaultDict.data (LogAnalyzer.step_counts self))
     = first_seen (flat_map filed_step acc)
  /\ Dict.keys (DefaultDict.data (LogAnalyzer.entries_by_step self))
     = first_seen (flat_map filed_step acc).

End Ledger.

(* ================================================================== *)
(** ** Terms for the scanner's output *)

Module Scan.

(** The lines of a file with their 1-based numbers. *)
Definition numbered (lines : list string) : list (Z * string) :=
  combine (map Z.of_nat (seq 1 (List.length lines))) lines.

(** The record, if any, that the classifier gives for a numbered line. *)
Definition record_at (il : Z * string) : list LogEntry :=
  match _parse_line (snd il) (fst il) with
  | Ok (Some e) => [e]
  | Ok None => []
  | Raise _ => []
  end.

(** The error line [parse_file] prints. *)
Definition error_line (filepath : string) (e : exn) : string :=
  "Error reading file " ++ filepath ++ ": " ++ exn_text e.

End Scan.

(** A file whose second read fails. *)
Definition broken_fs : filesystem := fun filepath _ =>
  if String.eqb filepath "disk.log" then
    Ok (MkFile ["CRITICAL: disk" ++ nl]
               (Some (Exn "[Errno 5] Input/output error")))
  else Raise (Exn "[Errno 2] No such file or directory").

(* ================================================================== *)
(** ** reporter.py: CSVReporter *)

Module CSVReporter.
Import LogAnalyzer.

(** A value given to [csv.writer]: a [str], an [int] or [None]. *)
Inductive cell : Type :=
  | Text (s : string)
  | Number (n : Z)
  | Nothing.

Definition row : Type := list cell.

(** [writer.writerow(r)] on the rows written so far. *)
Definition writerow (r : row) (f : list row) : list row := (f ++ [r])%list.

(** [sorted(d.items())]: the keys of a dict differ, so the values are
    never compared. *)
Fixpoint insert_item {V : Type} (x : string * V) (l : list (string * V))
    : list (string * V) :=
  match l with
  | [] => [x]
  | y :: l' =>
      if String.leb (fst x) (fst y) then x :: l else y :: insert_item x l'
  end.

Definition sorted {V : Type} (items : list (string * V))
    : list (string * V) :=
  fold_right insert_item [] items.

(** The body of [for level in ['CRITICAL', 'ERROR', 'WARNING']] of
    [generate_summary_report]. *)
Definition write_level_count (summary : Summary) (f : list row)
    (level : string) : list row :=
  let count := Dict.get level 0%Z (sum_level_counts summary) in
  writerow [Text level; Number count] f.

(** The body of [for step, counts in sorted(...)]. *)
Definition write_step_counts (f : list row) (item : string * Dict.dict Z)
    : list row :=
  let (step, counts) := item in
  let critical := Dict.get "CRITICAL" 0%Z counts in
  let error := Dict.get "ERROR" 0%Z counts in
  let warning := Dict.get "WARNING" 0%Z counts in
  let total := (critical + error + warning)%Z in
  writerow [Text step; Number critical; Number error; Number warning;
            Number total] f.

(** The rows [generate_summary_report] writes. *)
Definition generate_summary_report (summary : Summary) : list row :=
  let f := [] in
  let f := writerow [Text "Category"; Text "Value"] f in
  let f := writerow [Text "Total Entries";
                     Number (sum_total_entries summary)] f in
  let f := writerow [] f in
  let f := writerow [Text "Level"; Text "Count"] f in
  let f := fold_left (write_level_count summary)
                     ["CRITICAL"; "ERROR"; "WARNING"] f in
  let f := writerow [] f in
  match sum_step_counts summary with
  | [] => f
  | _ :: _ =>
      let f := writerow [Text "Step"; Text "CRITICAL"; Text "ERROR";
                         Text "WARNING"; Text "Total"] f in
      fold_left write_step_counts (sorted (sum_step_counts summary)) f
  end.

(** [entry.get(key, '')] for a key that [add_entry] always sets. *)
Definition optional (o : option string) : cell :=
  match o with
  | Some s => Text s
  | None => Nothing
  end.

(** The body of [for entry in entries] of [generate_detailed_report]. *)
Definition write_entry_row (f : list row) (entry : entry_data) : list row :=
  writerow [Text (ed_level entry); optional (ed_step entry);
            Number (ed_line_number entry); optional (ed_filename entry);
            Text (ed_message entry)] f.

Definition write_level_rows (st : list row * t) (level : string)
    : list row * t :=
  let (f, analyzer) := st in
  let (entries, analyzer) := get_entries_by_level level analyzer in
  (fold_left write_entry_row entries f, analyzer).

(** The rows [generate_detailed_report] writes. *)
Definition generate_detailed_report (analyzer : t) : list row * t :=
  let f := [] in
  let f := writerow [Text "Level"; Text "Step"; Text "Line Number";
                     Text "Filename"; Text "Message"] f in
  fold_left write_level_rows ["CRITICAL"; "ERROR"; "WARNING"] (f, analyzer).

(** The cells of the row of one stored record, and of one step. *)
Definition entry_cells (entry : entry_data) : row :=
  [Text (ed_level entry); optional (ed_step entry);
   Number (ed_line_number entry); optional (ed_filename entry);
   Text (ed_message entry)].

Definition step_cells (item : string * Dict.dict Z) : row :=
  [Text (fst item);
   Number (Dict.get "CRITICAL" 0%Z (snd item));
   Number (Dict.get "ERROR" 0%Z (snd item));
   Number (Dict.get "WARNING" 0%Z (snd item));
   Number (Dict.get "CRITICAL" 0%Z (snd item)
           + Dict.get "ERROR" 0%Z (snd item)
           + Dict.get "WARNING" 0%Z (snd item))%Z].

(** A stored record has one of the three levels of the reports. *)
Definition reported (entry : entry_data) : bool :=
  Ledger.reported_level (ed_level entry).

(** Two items are in the order of their steps, as [str] compares. *)
Definition by_step {V : Type} (a b : string * V) : Prop :=
  String.leb (fst a) (fst b) = true.

End CSVReporter.

(* ================================================================== *)
(** ** cli.py: the loop of [main] that parses and analyses the files *)

Module Cli.
Import LogAnalyzer.

Section Main.
(** The files, and [os.path.basename]. *)
Variable fs : filesystem.
Variable basename : string -> string.

(** One step of [for entry in log_parser.parse_file(...)]: a record goes
    to [analyzer.add_entry(entry, filename=os.path.basename(log_file))],
    a line the generator prints goes to the output. *)
Definition consume (log_file : string) (st : list string * t)
    (ev : event LogEntry) : list string * t :=
  let (out, analyzer) := st in
  match ev with
  | Yield entry =>
      (out, snd (add_entry entry (Some (basename log_file)) analyzer))
  | Print text => ((out ++ [text])%list, analyzer)
  end.

(** The body of [for log_file in log_files], with its [try]. *)
Definition process_file (verbose : bool) (encoding : string)
    (st : list string * t) (log_file : string) : list string * t :=
  let (out, analyzer) := st in
  let out :=
    if verbose then (out ++ [("Processing: " ++ log_file)%string])%list else out in
  let g := parse_file fs log_file encoding in
  let (out, analyzer) := fold_left (consume log_file) (events g)
                                   (out, analyzer) in
  match raised g with
  | Some e =>
      ((out ++ [("Error processing " ++ log_file ++ ": "
                 ++ exn_text e)%string])%list,
       analyzer)
  | None => (out, analyzer)
  end.

Definition process_files (verbose : bool) (encoding : string)
    (log_files : list string) (analyzer : t) : list string * t :=
  fold_left (process_file verbose encoding) log_files ([], analyzer).

(** The [add_entry] call made for a record of the batch scanner. *)
Definition add_of (pe : string * LogEntry) : op :=
  Add (snd pe) (Some (basename (fst pe))).

(** What the loop prints for one file. *)
Definition lines_for (verbose : bool) (encoding : string)
    (log_file : string) : list string :=
  ((if verbose then [("Processing: " ++ log_file)%string] else [])
   ++ prints (events (parse_file fs log_file encoding)))%list.

End Main.
End Cli.

(* ================================================================== *)
(** ** Terms for the detailed Markdown report under other caps *)

Module Pages.

Definition heading (level : string) (entries : list entry_data) : string :=
  "## " ++ level ++ " Messages ("
    ++ Str.of_Z (Z.of_nat (List.length entries)) ++ " total)" ++ nl ++ nl.


(** One level's part under a negative [max_entries]: the records but the
    last [- max_entries], and the note. *)
Definition cut_section (max_entries : Z) (level : string)
    (entries : list entry_data) : string :=
  match entries with
  | [] => EmptyString
  | _ :: _ =>
      heading level entries
      ++ Str.join (map (MarkdownReporter.write_entry EmptyString)
                       (firstn (List.length entries
                                - Z.to_nat (- max_entries)) entries))
      ++ "*...and "
      ++ Str.of_Z (Z.of_nat (List.length entries) - max_entries)
      ++ " more " ++ level ++ " messages*" ++ nl ++ nl
  end.


End Pages.

(* ================================================================== *)
(** ** reporter.py: MarkdownReporter.generate_summary_report *)

Module MarkdownSummary.
Import MarkdownReporter.

(** The body of [for level in ['CRITICAL', 'ERROR', 'WARNING']]. *)
Definition write_level_count (summary : Summary) (f : string)
    (level : string) : string :=
  let count := Dict.get level 0%Z (sum_level_counts summary) in
  write ("| " ++ level ++ " | " ++ Str.of_Z count ++ " |" ++ nl) f.

(** The body of [for step, counts in sorted(...)]. *)
Definition write_step_counts (f : string) (item : string * Dict.dict Z)
    : string :=
  let (step, counts) := item in
  let critical := Dict.get "CRITICAL" 0%Z counts in
  let error := Dict.get "ERROR" 0%Z counts in
  let warning := Dict.get "WARNING" 0%Z counts in
  let total := (critical + error + warning)%Z in
  write ("| " ++ step ++ " | " ++ Str.of_Z critical ++ " | "
         ++ Str.of_Z error ++ " | " ++ Str.of_Z warning ++ " | "
         ++ Str.of_Z total ++ " |" ++ nl) f.

(** The text [generate_summary_report] writes; [now] is
    [datetime.now().strftime('%Y-%m-%d %H:%M:%S')]. *)
Definition generate_summary_report (now : string) (summary : Summary)
    : string :=
  let f := EmptyString in
  let f := write ("# Log Analysis Summary Report" ++ nl ++ nl) f in
  let f := write ("**Generated:** " ++ now ++ nl ++ nl) f in
  let f := write ("## Overall Statistics" ++ nl ++ nl) f in
  let f := write ("- **Total Entries:** "
                  ++ Str.of_Z (sum_total_entries summary) ++ nl ++ nl) f in
  let f := write ("## Error Level Frequency" ++ nl ++ nl) f in
  let f := write ("| Level | Count |" ++ nl) f in
  let f := write ("|-------|-------|" ++ nl) f in
  let f := fold_left (write_level_count summary)
                     ["CRITICAL"; "ERROR"; "WARNING"] f in
  let f := write nl f in
  match sum_step_counts summary with
  | [] => f
  | _ :: _ =>
      let f := write ("## Errors by Step/Module" ++ nl ++ nl) f in
      let f := write ("| Step | CRITICAL | ERROR | WARNING | Total |"
                      ++ nl) f in
      let f := write ("|------|----------|-------|---------|-------|"
                      ++ nl) f in
      let f := fold_left write_step_counts
                         (CSVReporter.sorted (sum_step_counts summary)) f in
      write nl f
  end.

End MarkdownSummary.

(* ================================================================== *)
(** ** Terms for a Markdown table made of the rows of a CSV report *)

Module Tables.
Import CSVReporter.

(** A cell as [str.format] prints it in the Markdown report. *)
Definition cell_text (c : cell) : string :=
  match c with
  | Text s => s
  | Number n => Str.of_Z n
  | Nothing => EmptyString
  end.

(** The line [| a | b | ... |] of a row. *)
Definition table_line (r : row) : string :=
  "|" ++ Str.join (map (fun c => " " ++ cell_text c ++ " |") r) ++ nl.

Fixpoint dashes (n : nat) : string :=
  match n with
  | O => EmptyString
  | S n' => String "-" (dashes n')
  end.

(** The line of dashes under a heading row: as wide as the heading's
    cells. *)
Definition rule_line (r : row) : string :=
  "|" ++ Str.join (map (fun c => dashes (String.length (cell_text c) + 2)
                                 ++ "|") r) ++ nl.

(** A table: the heading row, the rule, the other rows. *)
Definition table (rows : list row) : string :=
  match rows with
  | [] => EmptyString
  | heading :: body =>
      table_line heading ++ rule_line heading
      ++ Str.join (map table_line body)
  end.

(** What comes before the tables. *)
Definition top (now : string) (total : Z) : string :=
  ("# Log Analysis Summary Report" ++ nl ++ nl)
  ++ ("**Generated:** " ++ now ++ nl ++ nl)
  ++ ("## Overall Statistics" ++ nl ++ nl)
  ++ ("- **Total Entries:** " ++ Str.of_Z total ++ nl ++ nl)
  ++ "## Error Level Frequency" ++ nl ++ nl.

End Tables.

(* ================================================================== *)
(** * Properties *)

(** ** Strings and characters *)

Lemma append_nil_r (s : string) : s ++ "" = s.
Proof. induction s as [|c s IH]; simpl; [reflexivity | now rewrite IH]. Qed.

Lemma append_assoc (a b c : string) : (a ++ b) ++ c = a ++ (b ++ c).
Proof. induction a as [|x a IH]; simpl; [reflexivity | now rewrite IH]. Qed.






Lemma is_word_tolower (c : ascii) : is_word (tolower c) = is_word c.
Proof.
  destruct c as [[] [] [] [] [] [] [] []]; vm_compute; reflexivity.
Qed.



Lemma ci_eqb_is_word (c d : ascii) :
  ci_eqb c d = true -> is_word c = is_word d.
Proof.
  unfold ci_eqb. intros H. apply Ascii.eqb_eq in H.
  rewrite <- (is_word_tolower c), <- (is_word_tolower d). now rewrite H.
Qed.



Lemma ci_eq_head (s t : string) :
  Str.ci_eq s t = true ->
  Re.word_opt (Str.head s) = Re.word_opt (Str.head t).
Proof.
  destruct s as [|c s], t as [|d t]; simpl; try discriminate; [reflexivity | ].
  intros H. apply andb_prop in H as [H _]. now apply ci_eqb_is_word.
Qed.

Lemma ci_eq_last_or (s t : string) (p q : option ascii) :
  Str.ci_eq s t = true ->
  Re.word_opt p = Re.word_opt q ->
  Re.word_opt (Str.last_or p s) = Re.word_opt (Str.last_or q t).
Proof.
  revert t p q. induction s as [|c s IH]; intros [|d t] p q; simpl;
    try discriminate; [trivial | ].
  intros H _. apply andb_prop in H as [Hc Hs].
  apply IH; [exact Hs | simpl; now apply ci_eqb_is_word].
Qed.

Lemma ci_eq_last_nonempty (s t : string) (p q : option ascii) :
  Str.ci_eq s t = true ->
  Re.word_opt (Str.head t) = true ->
  Re.word_opt (Str.last_or p s) = Re.word_opt (Str.last_or q t).
Proof.
  destruct s as [|c s], t as [|d t]; simpl; try discriminate.
  intros H _. apply andb_prop in H as [Hc Hs].
  apply ci_eq_last_or; [exact Hs | simpl; now apply ci_eqb_is_word].
Qed.


(** ** The matcher *)

Section Matcher.
Import Re.

Lemma match_lits_sound (w : string) (p : pattern) :
  forall prev s grp m,
    match_here (lits w ++ p)%list prev s grp = Some m ->
    exists mid rest,
      s = mid ++ rest /\ Str.ci_eq mid w = true
      /\ match_here p (Str.last_or prev mid) rest grp = Some m.
Proof.
  induction w as [|c w IH]; simpl; intros prev s grp m H.
  - exists "", s. auto.
  - destruct s as [|d s]; [discriminate | ].
    destruct (ci_eqb d c) eqn:E; [ | discriminate].
    apply IH in H as (mid & rest & -> & Hm & Hk).
    exists (String d mid), rest. simpl. rewrite E. auto.
Qed.

Lemma match_lits_complete (w : string) (p : pattern) :
  forall prev mid rest grp,
    Str.ci_eq mid w = true ->
    match_here (lits w ++ p)%list prev (mid ++ rest) grp
    = match_here p (Str.last_or prev mid) rest grp.
Proof.
  induction w as [|c w IH]; intros prev [|d mid] rest grp; simpl;
    try discriminate; [reflexivity | ].
  intros H. apply andb_prop in H as [Hc Hm]. rewrite Hc. now apply IH.
Qed.

Lemma search_from_some (p : pattern) :
  forall s prev m,
    search_from p prev s = Some m ->
    exists pre rest,
      s = pre ++ rest
      /\ match_here p (Str.last_or prev pre) rest None = Some m
      /\ forall pre' rest',
           s = pre' ++ rest' ->
           String.length pre' < String.length pre ->
           match_here p (Str.last_or prev pre') rest' None = None.
Proof.
  induction s as [|c s IH]; simpl; intros prev m H.
  - destruct (match_here p prev "" None) eqn:E; [ | discriminate].
    injection H as ->. exists "", "". simpl. repeat split; auto.
    intros pre' rest' _ Hl. lia.
  - destruct (match_here p prev (String c s) None) eqn:E.
    + injection H as ->. exists "", (String c s). simpl. repeat split; auto.
      intros pre' rest' _ Hl. lia.
    + apply IH in H as (pre & rest & -> & Hm & Hleft).
      exists (String c pre), rest. simpl. repeat split; auto.
      intros [|c' pre'] rest' Heq Hl; simpl in *.
      * now subst rest'.
      * injection Heq as <- Heq. apply Hleft; [exact Heq | lia].
Qed.

Lemma search_from_none (p : pattern) :
  forall s prev,
    search_from p prev s = None ->
    forall pre rest,
      s = pre ++ rest ->
      match_here p (Str.last_or prev pre) rest None = None.
Proof.
  induction s as [|c s IH]; simpl; intros prev H pre rest Heq.
  - destruct (match_here p prev "" None) eqn:E; [discriminate | ].
    destruct pre; simpl in Heq; [now subst rest | discriminate].
  - destruct (match_here p prev (String c s) None) eqn:E; [discriminate | ].
    destruct pre as [|c' pre]; simpl in *.
    + now subst rest.
    + injection Heq as <- Heq. now apply (IH (Some c)).
Qed.

(** A keyword pattern [\bKW\b] finds a match exactly when the keyword
    occurs as a word. *)
Lemma search_word (kw line : string) :
  word_opt (Str.head kw) = true ->
  word_opt (Str.last kw) = true ->
  LogParser.found (search ([Bound] ++ lits kw ++ [Bound])%list line) = true
  <-> Spec.occurs_as_word kw line.
Proof.
  intros Hh Hl. unfold search, Spec.occurs_as_word. split.
  - destruct (search_from _ None line) as [m|] eqn:E; [ | discriminate].
    intros _. apply search_from_some in E as (pre & rest & -> & Hm & _).
    simpl in Hm.
    destruct (at_boundary (Str.last_or None pre) rest) eqn:Hb; [ | discriminate].
    apply match_lits_sound in Hm as (mid & post & -> & Hci & Hk).
    simpl in Hk.
    destruct (at_boundary _ post) eqn:Hb2; [ | discriminate].
    exists pre, mid, post. split; [reflexivity | ]. split; [exact Hci | ].
    unfold at_boundary in Hb, Hb2.
    assert (Hhm : word_opt (Str.head (mid ++ post)) = true).
    { destruct mid as [|d mid]; [destruct kw; discriminate | ].
      simpl. rewrite <- Hh. now apply (ci_eq_head (String d mid) kw). }
    assert (Hlm : word_opt (Str.last_or (Str.last_or None pre) mid) = true).
    { rewrite <- Hl. unfold Str.last. now apply ci_eq_last_nonempty. }
    rewrite Hhm in Hb. rewrite Hlm in Hb2. unfold Str.last.
    split.
    + destruct (word_opt (Str.last_or None pre)); [discriminate | reflexivity].
    + destruct (word_opt (Str.head post)); [discriminate | reflexivity].
  - intros (pre & mid & post & -> & Hci & Hpre & Hpost).
    destruct (search_from _ None (pre ++ mid ++ post)) as [m|] eqn:E;
      [reflexivity | exfalso].
    pose proof (search_from_none _ _ _ E pre (mid ++ post) eq_refl) as Hn.
    simpl in Hn.
    assert (Hhm : word_opt (Str.head (mid ++ post)) = true).
    { destruct mid as [|d mid]; [destruct kw; discriminate | ].
      simpl. rewrite <- Hh. now apply (ci_eq_head (String d mid) kw). }
    assert (Hlm : word_opt (Str.last_or (Str.last_or None pre) mid) = true).
    { rewrite <- Hl. unfold Str.last. now apply ci_eq_last_nonempty. }
    unfold Str.last in Hpre.
    unfold at_boundary in Hn at 1. rewrite Hpre, Hhm in Hn. simpl in Hn.
    rewrite (match_lits_complete kw [Bound] _ mid post None Hci) in Hn.
    simpl in Hn. unfold at_boundary in Hn. rewrite Hlm, Hpost in Hn.
    discriminate.
Qed.

End Matcher.

(** ** Trimming *)

Lemma lstrip_spec (s : string) :
  exists l, s = l ++ Str.lstrip s /\ Str.all isspace l = true
    /\ match Str.head (Str.lstrip s) with
       | Some c => isspace c = false
       | None => True
       end.
Proof.
  induction s as [|c s (l & Hs & Hl & Hh)]; simpl.
  - exists "". auto.
  - destruct (isspace c) eqn:E.
    + exists (String c l). simpl. rewrite E, Hl. rewrite <- Hs. auto.
    + exists "". simpl. auto.
Qed.

Lemma rstrip_spec (s : string) :
  exists r, s = Str.rstrip s ++ r /\ Str.all isspace r = true
    /\ match Str.last (Str.rstrip s) with
       | Some c => isspace c = false
       | None => True
       end.
Proof.
  induction s as [|c s (r & Hs & Hr & Hl)]; simpl.
  - exists "". auto.
  - destruct (Str.rstrip s) as [|d t] eqn:Et; simpl.
    + simpl in Hs. destruct (isspace c) eqn:E.
      * exists (String c r). simpl. rewrite E, Hr, <- Hs. auto.
      * exists r. subst r. unfold Str.last. simpl. auto.
    + exists r. simpl in *. rewrite Hs at 1. auto.
Qed.

Lemma rstrip_head (s : string) :
  match Str.head s with Some c => isspace c = false | None => True end ->
  match Str.head (Str.rstrip s) with
  | Some c => isspace c = false
  | None => True
  end.
Proof.
  destruct s as [|c s]; simpl; [trivial | ].
  intros Hc. rewrite Hc, andb_false_r. exact Hc.
Qed.

Lemma strip_trimmed (s : string) : Spec.trimmed s (Str.strip s).
Proof.
  unfold Spec.trimmed, Str.strip.
  destruct (lstrip_spec s) as (l & Hs & Hl & Hh).
  destruct (rstrip_spec (Str.lstrip s)) as (r & Hs' & Hr & Hlast).
  exists l, r. repeat split; auto.
  - rewrite <- Hs'. exact Hs.
  - now apply rstrip_head.
Qed.


Lemma lstrip_all_space (s : string) :
  Str.all isspace s = true -> Str.lstrip s = "".
Proof.
  induction s as [|c s IH]; simpl; [reflexivity | ].
  intros H. apply andb_prop in H as [Hc Hs]. rewrite Hc. now apply IH.
Qed.


(** ** The step tag *)

Section StepTag.
Import Re.

Lemma ci_eqb_bracket (d : ascii) : ci_eqb d "]" = Ascii.eqb d "]".
Proof.
  destruct d as [[] [] [] [] [] [] [] []]; vm_compute; reflexivity.
Qed.

Lemma greedy_close_sound (s : string) :
  forall taken m,
    greedy_plus "]" (match_here [Lit "]"]) taken s = Some m ->
    exists body post,
      s = body ++ "]" ++ post
      /\ body <> ""
      /\ Str.all Spec.not_bracket body = true
      /\ m = MkMatch (Some (taken ++ body)).
Proof.
  induction s as [|d s IH]; simpl; intros taken m H; [discriminate | ].
  rewrite ci_eqb_bracket in H.
  destruct (Ascii.eqb d "]") eqn:E; [discriminate | ].
  destruct (greedy_plus _ _ _ s) as [m'|] eqn:G.
  - injection H as ->.
    apply IH in G as (body & post & -> & _ & Hall & ->).
    exists (String d body), post. simpl. unfold Spec.not_bracket at 1.
    rewrite E, Hall, append_assoc. repeat split; auto. discriminate.
  - destruct s as [|x s]; [discriminate | ].
    rewrite ci_eqb_bracket in H.
    destruct (Ascii.eqb x "]") eqn:Ex; [ | discriminate].
    apply Ascii.eqb_eq in Ex as ->. injection H as <-.
    exists (String d ""), s. simpl. unfold Spec.not_bracket.
    rewrite E. repeat split; auto. discriminate.
Qed.

Lemma greedy_close_complete (body : string) :
  forall taken post,
    body <> "" ->
    Str.all Spec.not_bracket body = true ->
    greedy_plus "]" (match_here [Lit "]"]) taken (body ++ "]" ++ post)
    = Some (MkMatch (Some (taken ++ body))).
Proof.
  induction body as [|d body IH]; intros taken post Hne Hall;
    [congruence | ].
  simpl in *. apply andb_prop in Hall as [Hd Hall].
  unfold Spec.not_bracket in Hd. apply negb_true_iff in Hd.
  rewrite ci_eqb_bracket, Hd.
  destruct body as [|e body].
  - reflexivity.
  - rewrite IH; [ | discriminate | exact Hall].
    now rewrite append_assoc.
Qed.

Lemma step_match_sound (prev : option ascii) (s : string) (m : re_match) :
  match_here LogParser.STEP_PATTERN prev s None = Some m ->
  exists open body post,
    s = open ++ body ++ "]" ++ post
    /\ Str.ci_eq open "[STEP:" = true
    /\ body <> ""
    /\ Str.all Spec.not_bracket body = true
    /\ m = MkMatch (Some body).
Proof.
  intros H. unfold LogParser.STEP_PATTERN in H.
  apply match_lits_sound in H as (open & rest & -> & Hci & Hk).
  simpl in Hk.
  apply greedy_close_sound in Hk as (body & post & -> & Hne & Hall & ->).
  exists open, body, post. auto.
Qed.

Lemma step_match_complete (prev : option ascii) (open body post : string) :
  Str.ci_eq open "[STEP:" = true ->
  body <> "" ->
  Str.all Spec.not_bracket body = true ->
  match_here LogParser.STEP_PATTERN prev (open ++ body ++ "]" ++ post) None
  = Some (MkMatch (Some body)).
Proof.
  intros Hci Hne Hall. unfold LogParser.STEP_PATTERN.
  rewrite (match_lits_complete _ _ _ _ _ _ Hci).
  cbn [app lits match_here]. now rewrite greedy_close_complete.
Qed.

Lemma search_step_some (line : string) (m : re_match) :
  search LogParser.STEP_PATTERN line = Some m ->
  exists body, Spec.first_step_tag line body /\ group1 m = Some body.
Proof.
  intros H. apply search_from_some in H as (pre & rest & -> & Hm & Hleft).
  apply step_match_sound in Hm as (open & body & post & -> & Hci & Hne & Hall & ->).
  exists body. split; [ | reflexivity].
  exists pre, post. split.
  - exists open. auto.
  - intros pre' body' post' (open' & Heq & Hci' & Hne' & Hall').
    destruct (Nat.le_gt_cases (String.length pre) (String.length pre'))
      as [Hle | Hlt]; [exact Hle | exfalso].
    specialize (Hleft pre' _ Heq Hlt).
    rewrite step_match_complete in Hleft by assumption. discriminate.
Qed.

Lemma search_step_none (line : string) :
  search LogParser.STEP_PATTERN line = None -> Spec.no_step_tag line.
Proof.
  intros H pre body post (open & Heq & Hci & Hne & Hall).
  pose proof (search_from_none _ _ _ H pre _ Heq) as Hn.
  rewrite step_match_complete in Hn by assumption. discriminate.
Qed.

End StepTag.

Lemma append_eq_length (a b c d : string) :
  a ++ b = c ++ d -> String.length a = String.length c -> a = c /\ b = d.
Proof.
  revert c. induction a as [|x a IH]; intros [|y c]; simpl; intros H Hl;
    try discriminate; [auto | ].
  injection H as -> H. injection Hl as Hl.
  destruct (IH c H Hl) as [-> ->]. auto.
Qed.

Lemma ci_eq_length (s t : string) :
  Str.ci_eq s t = true -> String.length s = String.length t.
Proof.
  revert t. induction s as [|c s IH]; intros [|d t]; simpl;
    try discriminate; [reflexivity | ].
  intros H. apply andb_prop in H as [_ H]. now rewrite (IH t H).
Qed.

Lemma body_unique (b1 b2 p1 p2 : string) :
  Str.all Spec.not_bracket b1 = true ->
  Str.all Spec.not_bracket b2 = true ->
  b1 ++ "]" ++ p1 = b2 ++ "]" ++ p2 ->
  b1 = b2.
Proof.
  revert b2. induction b1 as [|x b1 IH]; intros [|y b2]; simpl;
    intros H1 H2 Heq.
  - reflexivity.
  - injection Heq as <- _. discriminate.
  - injection Heq as -> _. discriminate.
  - injection Heq as -> Heq.
    apply andb_prop in H1 as [_ H1]. apply andb_prop in H2 as [_ H2].
    now rewrite (IH b2 H1 H2 Heq).
Qed.

Lemma first_step_tag_unique (line b1 b2 : string) :
  Spec.first_step_tag line b1 -> Spec.first_step_tag line b2 -> b1 = b2.
Proof.
  intros (pre1 & post1 & T1 & L1) (pre2 & post2 & T2 & L2).
  pose proof (L1 _ _ _ T2) as Hle1. pose proof (L2 _ _ _ T1) as Hle2.
  destruct T1 as (o1 & E1 & C1 & _ & A1).
  destruct T2 as (o2 & E2 & C2 & _ & A2).
  rewrite E1 in E2.
  apply append_eq_length in E2 as [_ E2]; [ | lia].
  apply append_eq_length in E2 as [_ E2].
  - exact (body_unique _ _ _ _ A1 A2 E2).
  - now rewrite (ci_eq_length _ _ C1), (ci_eq_length _ _ C2).
Qed.

(** ** The line classifier *)

(** [_parse_line] never raises, and this is what it returns. *)
Lemma parse_line_shape (line : string) (n : Z) :
  _parse_line line n
  = Ok match
         (if found (Re.search CRITICAL_PATTERN line) then Some "CRITICAL"
          else if found (Re.search ERROR_PATTERN line) then Some "ERROR"
          else if found (Re.search WARNING_PATTERN line) then Some "WARNING"
          else None)
       with
       | None => None
       | Some lv =>
           Some (MkLogEntry n (Str.strip line) lv
                   match Re.search STEP_PATTERN line with
                   | Some m => option_map Str.strip (Re.group1 m)
                   | None => None
                   end)
       end.
Proof.
  unfold _parse_line.
  destruct (if found (Re.search CRITICAL_PATTERN line) then _ else _);
    [ | reflexivity].
  destruct (Re.search STEP_PATTERN line) as [m|] eqn:E; [ | reflexivity].
  destruct (search_step_some _ _ E) as (body & _ & Hg).
  unfold group1_strip. now rewrite Hg.
Qed.

Lemma found_keyword (kw line : string) :
  Re.word_opt (Str.head kw) = true ->
  Re.word_opt (Str.last kw) = true ->
  (found (Re.search ([Re.Bound] ++ Re.lits kw ++ [Re.Bound])%list line) = true
   /\ Spec.occurs_as_word kw line)
  \/ (found (Re.search ([Re.Bound] ++ Re.lits kw ++ [Re.Bound])%list line) = false
      /\ ~ Spec.occurs_as_word kw line).
Proof.
  intros Hh Hl. pose proof (search_word kw line Hh Hl) as [H1 H2].
  destruct (found _) eqn:E.
  - left. split; [reflexivity | now apply H1].
  - right. split; [reflexivity | ]. intros Ho. apply H2 in Ho. discriminate.
Qed.

Lemma parse_line_level (line : string) (n : Z) :
  exists r, _parse_line line n = Ok r /\ Spec.level_is line (option_map level r).
Proof.
  rewrite parse_line_shape. eexists. split; [reflexivity | ].
  unfold Spec.level_is, CRITICAL_PATTERN, ERROR_PATTERN, WARNING_PATTERN.
  destruct (found_keyword "CRITICAL" line eq_refl eq_refl) as [[-> Hc] | [-> Hc]];
    [left; auto | right].
  destruct (found_keyword "ERROR" line eq_refl eq_refl) as [[-> He] | [-> He]];
    [left; auto | right].
  destruct (found_keyword "WARNING" line eq_refl eq_refl) as [[-> Hw] | [-> Hw]];
    [left; auto | right; auto].
Qed.




(** C3, as stated, fails: the line ["  ERROR: x"] followed by a newline
    gives the message ["ERROR: x"], which has lost the two spaces at its
    start. *)
Lemma C3_leading_whitespace_not_kept : ~ Spec.C3_as_stated.
Proof.
  intros H.
  specialize (H ("  ERROR: x" ++ nl) 1%Z
                (MkLogEntry 1 "ERROR: x" "ERROR" None) eq_refl).
  destruct H as (r & Heq & _). simpl in Heq. discriminate.
Qed.

(** C3, amended: for every classified line the message is the line with
    the whitespace at both of its ends removed. *)
Theorem C3_message_is_stripped_line (line : string) (n : Z) :
  exists r,
    _parse_line line n = Ok r
    /\ match r with
       | None => True
       | Some e =>
           message e = Str.strip line /\ Spec.trimmed line (message e)
       end.
Proof.
  rewrite parse_line_shape. eexists. split; [reflexivity | ].
  destruct (if found (Re.search CRITICAL_PATTERN line) then _ else _);
    [ | exact I].
  simpl. split; [reflexivity | apply strip_trimmed].
Qed.

(* ================================================================== *)
(** ** dict *)

Section DictFacts.
Context {V : Type}.
Implicit Types (d : Dict.dict V) (k : string) (v : V).

Lemma lookup_set k' k v d :
  Dict.lookup k' (Dict.set k v d)
  = if String.eqb k' k then Some v else Dict.lookup k' d.
Proof.
  induction d as [|[k0 v0] d IH]; simpl.
  - reflexivity.
  - destruct (String.eqb k k0) eqn:E; simpl.
    + apply String.eqb_eq in E as ->.
      destruct (String.eqb k' k0); reflexivity.
    + rewrite IH. destruct (String.eqb k' k) eqn:E'; [ | reflexivity].
      apply String.eqb_eq in E' as ->. now rewrite E.
Qed.

Lemma get_set k' k v d default :
  Dict.get k' default (Dict.set k v d)
  = if String.eqb k' k then v else Dict.get k' default d.
Proof.
  unfold Dict.get. rewrite lookup_set. now destruct (String.eqb k' k).
Qed.

End DictFacts.

Lemma sum_values_set (k : string) (v : Z) (d : Dict.dict Z) :
  fold_right Z.add 0%Z (Dict.values (Dict.set k v d))
  = (fold_right Z.add 0%Z (Dict.values d) - Dict.get k 0%Z d + v)%Z.
Proof.
  unfold Dict.get, Dict.values.
  induction d as [|[k0 v0] d IH]; simpl.
  - lia.
  - destruct (String.eqb k k0); simpl; [lia | ].
    rewrite IH. lia.
Qed.

(** ** The aggregator *)

Section Aggregator.
Import DefaultDict LogAnalyzer.

Lemma increment_factory (k : string) (d : defaultdict Z) :
  default_factory (increment k d) = default_factory d.
Proof.
  unfold increment, getitem. now destruct (Dict.lookup k (data d)).
Qed.

Lemma increment_sum (k : string) (d : defaultdict Z) :
  default_factory d = 0%Z ->
  fold_right Z.add 0%Z (Dict.values (data (increment k d)))
  = (fold_right Z.add 0%Z (Dict.values (data d)) + 1)%Z.
Proof.
  intros Hf. unfold increment, getitem.
  destruct (Dict.lookup k (data d)) as [v|] eqn:E; simpl.
  - rewrite sum_values_set. unfold Dict.get. rewrite E. lia.
  - rewrite !sum_values_set. unfold Dict.get.
    rewrite lookup_set, String.eqb_refl, E, Hf. lia.
Qed.

Lemma increment_get (k' k : string) (d : defaultdict Z) :
  default_factory d = 0%Z ->
  get k' 0%Z (increment k d)
  = (get k' 0 d + if String.eqb k' k then 1 else 0)%Z.
Proof.
  intros Hf. unfold increment, getitem, get.
  destruct (Dict.lookup k (data d)) as [v|] eqn:E; simpl.
  - rewrite get_set. destruct (String.eqb k' k) eqn:E'; [ | lia].
    apply String.eqb_eq in E' as ->. unfold Dict.get. now rewrite E.
  - rewrite !get_set. destruct (String.eqb k' k) eqn:E'; [ | lia].
    apply String.eqb_eq in E' as ->. unfold Dict.get. rewrite E, Hf. lia.
Qed.

Lemma append_to_factory (k : string) (x : entry_data)
    (d : defaultdict (list entry_data)) :
  default_factory (append_to k x d) = default_factory d.
Proof.
  unfold append_to, getitem. now destruct (Dict.lookup k (data d)).
Qed.

Lemma append_to_get (k' k : string) (x : entry_data)
    (d : defaultdict (list entry_data)) :
  default_factory d = [] ->
  get k' [] (append_to k x d)
  = if String.eqb k' k then (get k' [] d ++ [x])%list else get k' [] d.
Proof.
  intros Hf. unfold append_to, getitem, get.
  destruct (Dict.lookup k (data d)) as [l|] eqn:E; simpl.
  - rewrite get_set. destruct (String.eqb k' k) eqn:E'; [ | reflexivity].
    apply String.eqb_eq in E' as ->. unfold Dict.get. now rewrite E.
  - rewrite !get_set. destruct (String.eqb k' k) eqn:E'; [ | reflexivity].
    apply String.eqb_eq in E' as ->. unfold Dict.get. now rewrite E, Hf.
Qed.

(** What [add_entry] leaves, field by field. *)
Lemma add_entry_fields (entry : LogEntry) (filename : option string) (self : t) :
  let self' := snd (add_entry entry filename self) in
  let ed := MkEntryData (line_number entry) (message entry) (level entry)
                        (step entry) filename in
  total_entries self' = (total_entries self + 1)%Z
  /\ level_counts self' = increment (level entry) (level_counts self)
  /\ entries_by_level self'
     = append_to (level entry) ed (entries_by_level self)
  /\ (truthy_opt (step entry) = false ->
      step_counts self' = step_counts self
      /\ entries_by_step self' = entries_by_step self)
  /\ (forall st, step entry = Some st -> Str.truthy st = true ->
      step_counts self' = increment2 st (level entry) (step_counts self)
      /\ entries_by_step self' = append_to st ed (entries_by_step self)).
Proof.
  unfold add_entry, truthy_opt.
  destruct (step entry) as [st|]; [destruct (Str.truthy st) eqn:T | ];
    simpl; repeat split; auto; try discriminate; congruence.
Qed.

Lemma factories_kept_init : Spec.factories_kept init.
Proof. repeat split. Qed.

Lemma factories_kept_apply (o : op) (self : t) :
  Spec.factories_kept self -> Spec.factories_kept (apply o self).
Proof.
  intros (H1 & H2 & H3). destruct o as [entry filename | ];
    [ | exact factories_kept_init].
  unfold Spec.factories_kept, apply.
  destruct (add_entry_fields entry filename self) as (_ & -> & -> & Hn & Hs).
  rewrite increment_factory, append_to_factory.
  split; [exact H1 | ]. split; [exact H2 | ].
  destruct (step entry) as [st|] eqn:Es.
  - destruct (Str.truthy st) eqn:T.
    + destruct (Hs st eq_refl T) as [_ ->]. now rewrite append_to_factory.
    + destruct Hn as [_ ->]; [simpl; now rewrite T | exact H3].
  - destruct Hn as [_ ->]; [reflexivity | exact H3].
Qed.


Lemma invariant_apply (o : op) (self : t) :
  Spec.factories_kept self ->
  total_entries self = sum_level_counts_values self ->
  total_entries (apply o self) = sum_level_counts_values (apply o self).
Proof.
  intros (Hf & _) Hinv. destruct o as [entry filename | ]; [ | reflexivity].
  unfold apply, sum_level_counts_values.
  destruct (add_entry_fields entry filename self) as (-> & -> & _).
  rewrite (increment_sum _ _ Hf). unfold sum_level_counts_values in Hinv.
  now rewrite Hinv.
Qed.

Lemma invariant_states (ops : list op) :
  forall self,
    Spec.factories_kept self ->
    total_entries self = sum_level_counts_values self ->
    Forall (fun s => total_entries s = sum_level_counts_values s)
           (states ops self).
Proof.
  induction ops as [|o ops IH]; intros self Hf Hinv; simpl; constructor.
  - now apply invariant_apply.
  - apply IH; [now apply factories_kept_apply | now apply invariant_apply].
Qed.

(** C4: from the initial state, after each call of any sequence of
    [add_entry] and [reset], [total_entries] equals
    [sum(level_counts.values())]. *)
Theorem C4_total_is_sum_of_level_counts (ops : list op) :
  total_entries init = sum_level_counts_values init
  /\ Forall (fun s => total_entries s = sum_level_counts_values s)
            (states ops init)
  /\ total_entries (run ops init) = sum_level_counts_values (run ops init).
Proof.
  split; [reflexivity | ]. split.
  - apply invariant_states; [exact factories_kept_init | reflexivity].
  - assert (G : forall l s, Spec.factories_kept s ->
                total_entries s = sum_level_counts_values s ->
                total_entries (run l s) = sum_level_counts_values (run l s)).
    { induction l as [|o l IH]; intros s Hf Hi; [exact Hi | ].
      simpl. apply IH; [now apply factories_kept_apply
                       | now apply invariant_apply]. }
    apply G; [exact factories_kept_init | reflexivity].
Qed.

End Aggregator.

Section Buckets.
Import DefaultDict LogAnalyzer.

Lemma buckets_apply (entry : LogEntry) (filename : option string)
    (self : t) (acc : list entry_data) :
  let ed := MkEntryData (line_number entry) (message entry) (level entry)
                        (step entry) filename in
  Spec.factories_kept self ->
  (forall k, get k [] (entries_by_level self) = filter (Spec.has_level k) acc) ->
  (forall k, get k [] (entries_by_step self) = filter (Spec.has_step k) acc) ->
  (forall k, get k [] (entries_by_level (apply (Add entry filename) self))
             = filter (Spec.has_level k) (acc ++ [ed])%list)
  /\ (forall k, get k [] (entries_by_step (apply (Add entry filename) self))
                = filter (Spec.has_step k) (acc ++ [ed])%list).
Proof.
  intros ed (_ & Hfl & Hfs) Hl Hs. subst ed. unfold apply.
  destruct (add_entry_fields entry filename self) as (_ & _ & -> & Hn & Hy).
  split; intros k; rewrite filter_app; simpl.
  - rewrite (append_to_get _ _ _ _ Hfl), Hl.
    change (Spec.has_level k (MkEntryData _ _ _ _ _))
      with (String.eqb (level entry) k).
    rewrite (String.eqb_sym (level entry) k).
    destruct (String.eqb k (level entry)); [reflexivity | now rewrite app_nil_r].
  - change (Spec.has_step k (MkEntryData _ _ _ _ _))
      with (match step entry with
            | Some s => Str.truthy s && String.eqb s k
            | None => false
            end).
    destruct (step entry) as [st|] eqn:Es.
    + destruct (Str.truthy st) eqn:T; simpl.
      * destruct (Hy st eq_refl T) as [_ ->].
        rewrite (append_to_get _ _ _ _ Hfs), Hs.
        rewrite (String.eqb_sym st k).
        destruct (String.eqb k st); [reflexivity | now rewrite app_nil_r].
      * destruct Hn as [_ ->]; [simpl; now rewrite T | ].
        now rewrite Hs, app_nil_r.
    + destruct Hn as [_ ->]; [reflexivity | ]. now rewrite Hs, app_nil_r.
Qed.

Lemma buckets_run (ops : list op) :
  forall (self : t) (acc : list entry_data),
    Spec.factories_kept self ->
    (forall k, get k [] (entries_by_level self) = filter (Spec.has_level k) acc) ->
    (forall k, get k [] (entries_by_step self) = filter (Spec.has_step k) acc) ->
    (forall k, get k [] (entries_by_level (run ops self))
               = filter (Spec.has_level k) (added acc ops))
    /\ (forall k, get k [] (entries_by_step (run ops self))
                  = filter (Spec.has_step k) (added acc ops)).
Proof.
  induction ops as [|o ops IH]; intros self acc Hf Hl Hs; [auto | ].
  destruct o as [entry filename | ]; simpl.
  - destruct (buckets_apply entry filename self acc Hf Hl Hs) as [Hl' Hs'].
    apply IH; auto. now apply (factories_kept_apply (Add entry filename)).
  - apply IH; [exact factories_kept_init | reflexivity | reflexivity].
Qed.

Lemma filter_none {A : Type} (f : A -> bool) (l : list A) :
  (forall x, In x l -> f x = false) -> filter f l = [].
Proof.
  induction l as [|x l IH]; simpl; intros H; [reflexivity | ].
  rewrite (H x (or_introl eq_refl)). apply IH. intros y Hy. apply H. now right.
Qed.

(** C6: after any sequence of [add_entry] and [reset] calls made on a new
    analyzer, [get_entries_by_level] and [get_entries_by_step] return
    normally, for every key, the records stored under that key since the
    last reset in the order they were added, and the empty list for a key
    no stored record has. *)
Theorem C6_entries_in_insertion_order (ops : list op) (key : string) :
  let self := run ops init in
  fst (get_entries_by_level key self)
  = filter (Spec.has_level key) (added [] ops)
  /\ fst (get_entries_by_step key self)
     = filter (Spec.has_step key) (added [] ops)
  /\ ((forall ed, In ed (added [] ops) -> ed_level ed <> key) ->
      fst (get_entries_by_level key self) = [])
  /\ ((forall ed, In ed (added [] ops) -> ed_step ed <> Some key) ->
      fst (get_entries_by_step key self) = []).
Proof.
  destruct (buckets_run ops init [] factories_kept_init
              (fun _ => eq_refl) (fun _ => eq_refl)) as [Hl Hs].
  simpl. rewrite Hl, Hs. repeat split.
  - intros H. apply filter_none. intros ed Hin. unfold Spec.has_level.
    apply String.eqb_neq. now apply H.
  - intros H. apply filter_none. intros ed Hin. unfold Spec.has_step.
    specialize (H ed Hin). destruct (ed_step ed) as [s|]; [ | reflexivity].
    destruct (String.eqb s key) eqn:E; [ | now rewrite andb_false_r].
    apply String.eqb_eq in E. congruence.
Qed.

(** C5: [get_summary] leaves the analyzer as it was, so a second call
    right after the first returns an equal summary; on a new analyzer, and
    on one just reset, it returns a total of zero, no level count (every
    level reads as zero) and no step. *)
Theorem C5_summary_pure_and_empty_at_start :
  (forall self,
     snd (get_summary self) = self
     /\ fst (get_summary (snd (get_summary self))) = fst (get_summary self))
  /\ fst (get_summary init) = MkSummary 0 [] [] []
  /\ (forall self,
        fst (get_summary (snd (reset self))) = MkSummary 0 [] [] [])
  /\ Forall (fun v => v = 0%Z)
            (Dict.values (sum_level_counts (fst (get_summary init))))
  /\ (forall lv,
        Dict.get lv 0%Z (sum_level_counts (fst (get_summary init))) = 0%Z).
Proof.
  repeat split. constructor.
Qed.

(** C10: [get_summary], [get_level_frequency], [get_step_frequency],
    [get_entries_by_level] and [get_entries_by_step] leave every field of
    the analyzer as it was; asking for a level or a step that has no
    bucket creates none. *)
Theorem C10_reads_leave_state_unchanged (self : t) (key : string) :
  snd (get_summary self) = self
  /\ snd (get_level_frequency self) = self
  /\ snd (get_step_frequency self) = self
  /\ snd (get_entries_by_level key self) = self
  /\ snd (get_entries_by_step key self) = self
  /\ Dict.lookup key (data (entries_by_level
                              (snd (get_entries_by_level key self))))
     = Dict.lookup key (data (entries_by_level self))
  /\ Dict.lookup key (data (entries_by_step
                              (snd (get_entries_by_step key self))))
     = Dict.lookup key (data (entries_by_step self))
  /\ Dict.keys (data (entries_by_level
                        (snd (get_entries_by_level "FATAL" init)))) = []
  /\ Dict.keys (data (entries_by_step
                        (snd (get_entries_by_step "Load" init)))) = [].
Proof.
  repeat split.
Qed.

End Buckets.

Section BlankStep.
Import DefaultDict LogAnalyzer.




End BlankStep.

(** ** The detailed Markdown report *)

Section Report.
Import LogAnalyzer MarkdownReporter.







End Report.

(** ** The file scanner *)

Section Scanner.
Variable fs : filesystem.

Lemma yields_app {A : Type} (a b : list (event A)) :
  yields (a ++ b)%list = (yields a ++ yields b)%list.
Proof.
  induction a as [|[x|t] a IH]; simpl; [reflexivity | | exact IH].
  now rewrite IH.
Qed.

Lemma parse_file_returns (filepath encoding : string) :
  raised (parse_file fs filepath encoding) = None.
Proof.
  unfold parse_file.
  destruct (raised (parse_file_try fs filepath encoding)) eqn:E;
    [reflexivity | exact E].
Qed.

Lemma parse_multiple_files_step (filepath : string) (rest : list string)
    (encoding : string) :
  parse_multiple_files fs (filepath :: rest) encoding
  = MkGen (map (tag filepath) (events (parse_file fs filepath encoding))
           ++ events (parse_multiple_files fs rest encoding))%list
          (raised (parse_multiple_files fs rest encoding)).
Proof.
  simpl. now rewrite parse_file_returns.
Qed.

Lemma parse_multiple_files_returns (filepaths : list string)
    (encoding : string) :
  raised (parse_multiple_files fs filepaths encoding) = None.
Proof.
  induction filepaths as [|p rest IH]; [reflexivity | ].
  rewrite parse_multiple_files_step. exact IH.
Qed.

Lemma parse_multiple_files_app (a b : list string) (encoding : string) :
  events (parse_multiple_files fs (a ++ b)%list encoding)
  = (events (parse_multiple_files fs a encoding)
     ++ events (parse_multiple_files fs b encoding))%list.
Proof.
  induction a as [|p a IH]; [reflexivity | ].
  rewrite <- app_comm_cons, !parse_multiple_files_step. simpl.
  now rewrite IH, app_assoc.
Qed.

Lemma parse_file_open_error (filepath encoding : string) (e : exn) :
  fs filepath encoding = Raise e ->
  parse_file fs filepath encoding
  = MkGen [Print ("Error reading file " ++ filepath ++ ": " ++ exn_text e)]
          None.
Proof.
  intros H. unfold parse_file, parse_file_try. now rewrite H.
Qed.

(** C8: when opening a file raises, [parse_file] prints the error, yields
    no record and ends normally; [parse_multiple_files] then ends normally
    too and yields, for any files given before and after that one, what
    it yields for them without it. *)
Theorem C8_unreadable_file_is_skipped (filepath encoding : string) (e : exn)
    (before after : list string) :
  fs filepath encoding = Raise e ->
  let g := parse_file fs filepath encoding in
  let batch :=
    parse_multiple_files fs (before ++ filepath :: after)%list encoding in
  raised g = None
  /\ yields (events g) = []
  /\ prints (events g)
     = ["Error reading file " ++ filepath ++ ": " ++ exn_text e]
  /\ raised batch = None
  /\ yields (events batch)
     = (yields (events (parse_multiple_files fs before encoding))
        ++ yields (events (parse_multiple_files fs after encoding)))%list.
Proof.
  intros H g batch. subst g batch.
  rewrite parse_multiple_files_returns, parse_multiple_files_app.
  rewrite parse_multiple_files_step, (parse_file_open_error _ _ _ H).
  repeat split. simpl. now rewrite yields_app.
Qed.

End Scanner.

Lemma C8_unreadable_file_witness :
  let g := parse_file sample_fs "missing.log" "utf-8" in
  let batch :=
    parse_multiple_files sample_fs
      (["app.log"] ++ "missing.log" :: ["app.log"])%list "utf-8" in
  raised g = None
  /\ yields (events g) = []
  /\ prints (events g)
     = ["Error reading file " ++ "missing.log" ++ ": "
        ++ exn_text (Exn "[Errno 2] No such file or directory: 'missing.log'")]
  /\ raised batch = None
  /\ yields (events batch)
     = (yields (events (parse_multiple_files sample_fs ["app.log"] "utf-8"))
        ++ yields (events (parse_multiple_files sample_fs ["app.log"] "utf-8")))%list.
Proof.
  apply (C8_unreadable_file_is_skipped sample_fs "missing.log" "utf-8"
           (Exn "[Errno 2] No such file or directory: 'missing.log'")
           ["app.log"] ["app.log"]).
  reflexivity.
Defined.

Example scan_batch :
  yields (events (parse_multiple_files sample_fs
                    ["missing.log"; "app.log"] "utf-8"))
  = [("app.log", MkLogEntry 2 "[STEP:Load] ERROR: failed" "ERROR" (Some "Load"));
     ("app.log", MkLogEntry 3 "WARNING: slow" "WARNING" None)].
Proof. reflexivity. Qed.

(** Subscripting a [defaultdict] with a missing key, which the read
    methods never do, is what would store a new bucket. *)
Example subscript_stores_bucket :
  Dict.keys (DefaultDict.data
               (snd (DefaultDict.getitem "FATAL" LogAnalyzer.new_entries)))
  = ["FATAL"]
  /\ DefaultDict.get "FATAL" [] LogAnalyzer.new_entries = [].
Proof. split; reflexivity. Qed.

(* ================================================================== *)
(** * Further properties *)

(** ** Keys of a dict *)

Section KeyFacts.
Context {V : Type}.
Implicit Types (d : Dict.dict V) (k : string) (v : V).

Lemma lookup_none_keys k d :
  Dict.lookup k d = None <-> existsb (String.eqb k) (Dict.keys d) = false.
Proof.
  induction d as [|[k0 v0] d IH]; simpl; [tauto | ].
  destruct (String.eqb k k0); simpl; [split; discriminate | exact IH].
Qed.

Lemma keys_set k v d :
  Dict.keys (Dict.set k v d) = Ledger.note_key (Dict.keys d) k.
Proof.
  unfold Ledger.note_key.
  induction d as [|[k0 v0] d IH]; simpl; [reflexivity | ].
  destruct (String.eqb k k0) eqn:E; simpl; [reflexivity | ].
  rewrite IH. now destruct (existsb (String.eqb k) (Dict.keys d)).
Qed.

Lemma note_key_twice (acc : list string) k :
  Ledger.note_key (Ledger.note_key acc k) k = Ledger.note_key acc k.
Proof.
  unfold Ledger.note_key.
  destruct (existsb (String.eqb k) acc) eqn:E; [now rewrite E | ].
  now rewrite existsb_app, E; simpl; rewrite String.eqb_refl.
Qed.

Lemma keys_getitem_setitem k v (dd : DefaultDict.defaultdict V) :
  Dict.keys (DefaultDict.data
               (DefaultDict.setitem k v (snd (DefaultDict.getitem k dd))))
  = Ledger.note_key (Dict.keys (DefaultDict.data dd)) k.
Proof.
  unfold DefaultDict.getitem, DefaultDict.setitem.
  destruct (Dict.lookup k (DefaultDict.data dd)); simpl.
  - apply keys_set.
  - now rewrite !keys_set, note_key_twice.
Qed.

End KeyFacts.

Lemma note_key_in (acc : list string) (k x : string) :
  In x (Ledger.note_key acc k) <-> In x acc \/ x = k.
Proof.
  unfold Ledger.note_key.
  destruct (existsb (String.eqb k) acc) eqn:E.
  - apply existsb_exists in E as (y & Hy & Hk). apply String.eqb_eq in Hk.
    subst y. split; [auto | intros [H | ->]; assumption].
  - rewrite in_app_iff. simpl. intuition auto.
Qed.

Lemma note_key_nodup (acc : list string) (k : string) :
  NoDup acc -> NoDup (Ledger.note_key acc k).
Proof.
  intros Hn. unfold Ledger.note_key.
  destruct (existsb (String.eqb k) acc) eqn:E; [exact Hn | ].
  apply NoDup_app; [exact Hn | repeat constructor; intros [] | ].
  intros x Hx [Hk | []]. subst x.
  assert (Ht : existsb (String.eqb k) acc = true)
    by (apply existsb_exists; exists k; split; [exact Hx | apply String.eqb_refl]).
  congruence.
Qed.

Lemma fold_note_key_in (l acc : list string) (x : string) :
  In x (fold_left Ledger.note_key l acc) <-> In x acc \/ In x l.
Proof.
  revert acc. induction l as [|k l IH]; intros acc; simpl; [tauto | ].
  rewrite IH, note_key_in. split; intros H; intuition auto.
Qed.

Lemma fold_note_key_nodup (l acc : list string) :
  NoDup acc -> NoDup (fold_left Ledger.note_key l acc).
Proof.
  revert acc. induction l as [|k l IH]; intros acc Hn; simpl; [exact Hn | ].
  apply IH. now apply note_key_nodup.
Qed.

(** ** The aggregator's ledger *)

Section LedgerFacts.
Import DefaultDict LogAnalyzer.

Lemma count_filter_snoc {A : Type} (p : A -> bool) (l : list A) (x : A) :
  Ledger.count (filter p (l ++ [x])%list)
  = (Ledger.count (filter p l) + if p x then 1 else 0)%Z.
Proof.
  unfold Ledger.count. rewrite filter_app. simpl.
  destruct (p x); rewrite ?app_nil_r, ?length_app; simpl; lia.
Qed.

Lemma first_seen_snoc (l : list string) (k : string) :
  Ledger.first_seen (l ++ [k])%list
  = Ledger.note_key (Ledger.first_seen l) k.
Proof. unfold Ledger.first_seen. now rewrite fold_left_app. Qed.

Lemma increment_keys (k : string) (d : defaultdict Z) :
  Dict.keys (data (increment k d)) = Ledger.note_key (Dict.keys (data d)) k.
Proof.
  unfold increment.
  pose proof (keys_getitem_setitem k (fst (getitem k d) + 1)%Z d) as H.
  now destruct (getitem k d).
Qed.

Lemma append_to_keys (k : string) (x : entry_data)
    (d : defaultdict (list entry_data)) :
  Dict.keys (data (append_to k x d)) = Ledger.note_key (Dict.keys (data d)) k.
Proof.
  unfold append_to.
  pose proof (keys_getitem_setitem k (fst (getitem k d) ++ [x])%list d) as H.
  now destruct (getitem k d).
Qed.

Lemma increment2_keys (s lv : string) (d : defaultdict (defaultdict Z)) :
  Dict.keys (data (increment2 s lv d))
  = Ledger.note_key (Dict.keys (data d)) s.
Proof.
  unfold increment2.
  pose proof (keys_getitem_setitem s (increment lv (fst (getitem s d))) d) as H.
  now destruct (getitem s d).
Qed.

Lemma getitem_value {V : Type} (k : string) (d : defaultdict V) :
  fst (getitem k d) = get k (default_factory d) d.
Proof.
  unfold getitem, get, Dict.get. now destruct (Dict.lookup k (data d)).
Qed.

Lemma getitem_other {V : Type} (k' k : string) (d : defaultdict V) :
  String.eqb k' k = false ->
  Dict.lookup k' (data (snd (getitem k d))) = Dict.lookup k' (data d).
Proof.
  intros E. unfold getitem.
  destruct (Dict.lookup k (data d)); simpl; [reflexivity | ].
  now rewrite lookup_set, E.
Qed.

Lemma increment2_lookup (s' s lv : string) (d : defaultdict (defaultdict Z)) :
  Dict.lookup s' (data (increment2 s lv d))
  = if String.eqb s' s
    then Some (increment lv (get s (default_factory d) d))
    else Dict.lookup s' (data d).
Proof.
  unfold increment2.
  pose proof (getitem_value s d) as Hv. pose proof (getitem_other s' s d) as Ho.
  destruct (getitem s d) as [inner d1]. simpl in *.
  rewrite lookup_set, Hv. destruct (String.eqb s' s); [reflexivity | now apply Ho].
Qed.

Lemma increment2_factory (s lv : string) (d : defaultdict (defaultdict Z)) :
  default_factory (increment2 s lv d) = default_factory d.
Proof.
  unfold increment2, getitem. now destruct (Dict.lookup s (data d)).
Qed.

Lemma inner_factories_kept_init : Ledger.inner_factories_kept init.
Proof. split; [reflexivity | intros k inner H; discriminate]. Qed.

Lemma inner_factories_kept_apply (o : op) (self : t) :
  Ledger.inner_factories_kept self ->
  Ledger.inner_factories_kept (apply o self).
Proof.
  intros [Hf Hin]. destruct o as [entry filename | ];
    [ | exact inner_factories_kept_init].
  unfold apply, Ledger.inner_factories_kept.
  destruct (add_entry_fields entry filename self) as (_ & _ & _ & Hn & Hy).
  destruct (step entry) as [st|] eqn:Es;
    [destruct (Str.truthy st) eqn:T | ].
  - destruct (Hy st eq_refl T) as [-> _].
    rewrite increment2_factory. split; [exact Hf | ].
    intros k inner. rewrite increment2_lookup.
    destruct (String.eqb k st).
    + intros [= <-]. rewrite increment_factory, Hf.
      unfold get, Dict.get.
      destruct (Dict.lookup st (data (step_counts self))) as [i|] eqn:E;
        [now apply (Hin st) | reflexivity].
    + apply Hin.
  - destruct Hn as [-> _]; [simpl; now rewrite T | now split].
  - destruct Hn as [-> _]; [reflexivity | now split].
Qed.

Lemma increment2_get (s' lv' s lv : string) (d : defaultdict (defaultdict Z)) :
  default_factory d = new_counts ->
  (forall k inner, Dict.lookup k (data d) = Some inner ->
                   default_factory inner = 0%Z) ->
  get lv' 0%Z (get s' new_counts (increment2 s lv d))
  = (get lv' 0%Z (get s' new_counts d)
     + if String.eqb s' s && String.eqb lv' lv then 1 else 0)%Z.
Proof.
  intros Hf Hin. unfold get at 2 4. unfold Dict.get.
  rewrite increment2_lookup, Hf.
  destruct (String.eqb s' s) eqn:E; simpl; [ | lia].
  apply String.eqb_eq in E as ->.
  rewrite increment_get.
  - unfold get at 2. unfold Dict.get.
    now destruct (Dict.lookup s (data d)).
  - unfold get, Dict.get.
    destruct (Dict.lookup s (data d)) as [i|] eqn:E;
      [now apply (Hin s) | reflexivity].
Qed.

Lemma balanced_init : Ledger.balanced init [].
Proof. repeat split. Qed.

Lemma balanced_add (entry : LogEntry) (filename : option string)
    (self : t) (acc : list entry_data) :
  Spec.factories_kept self ->
  Ledger.inner_factories_kept self ->
  Ledger.balanced self acc ->
  Ledger.balanced (apply (Add entry filename) self)
    (acc ++ [MkEntryData (line_number entry) (message entry) (level entry)
               (step entry) filename])%list.
Proof.
  intros (Hf0 & _) [Hsf Hin] (Ht & Hlc & Hsc & Kl & Kel & Ks & Kes).
  unfold apply.
  destruct (add_entry_fields entry filename self)
    as (Ht' & Hlc' & Hel' & Hn & Hy).
  set (ed := MkEntryData _ _ _ _ _).
  assert (Hlv : forall k, Spec.has_level k ed = String.eqb k (level entry))
    by (intros k; unfold Spec.has_level; simpl; apply String.eqb_sym).
  assert (Hst : forall s, Spec.has_step s ed
                = match step entry with
                  | Some x => Str.truthy x && String.eqb x s
                  | None => false
                  end) by reflexivity.
  assert (Hfs : Ledger.filed_step ed
                = match step entry with
                  | Some x => if Str.truthy x then [x] else []
                  | None => []
                  end) by reflexivity.
  unfold Ledger.balanced.
  rewrite Ht', Hlc', Hel', map_app, flat_map_app.
  cbn [map flat_map]. change (ed_level ed) with (level entry).
  rewrite app_nil_r, first_seen_snoc, Hfs.
  rewrite increment_keys, append_to_keys, Kl, Kel.
  split; [unfold Ledger.count in *; rewrite length_app; simpl; lia | ].
  split; [intros k; rewrite (increment_get _ _ _ Hf0), Hlc,
                      count_filter_snoc, Hlv; reflexivity | ].
  clearbody ed.
  destruct (step entry) as [st|] eqn:Es;
    [destruct (Str.truthy st) eqn:T | ].
  - destruct (Hy st eq_refl T) as [-> ->].
    rewrite first_seen_snoc, increment2_keys, append_to_keys, Ks, Kes.
    repeat split; auto.
    intros s lv. rewrite (increment2_get _ _ _ _ _ Hsf Hin), Hsc.
    rewrite count_filter_snoc, Hst, Hlv, (String.eqb_sym st s).
    reflexivity.
  - destruct Hn as [-> ->]; [simpl; now rewrite T | ].
    rewrite app_nil_r. repeat split; auto.
    intros s lv. rewrite Hsc, count_filter_snoc, Hst. simpl. lia.
  - destruct Hn as [-> ->]; [reflexivity | ].
    rewrite app_nil_r. repeat split; auto.
    intros s lv. rewrite Hsc, count_filter_snoc, Hst. simpl. lia.
Qed.

Lemma balanced_run (ops : list op) :
  forall (self : t) (acc : list entry_data),
    Spec.factories_kept self ->
    Ledger.inner_factories_kept self ->
    Ledger.balanced self acc ->
    Ledger.balanced (run ops self) (added acc ops).
Proof.
  induction ops as [|o ops IH]; intros self acc Hf Hi Hb; [exact Hb | ].
  destruct o as [entry filename | ]; simpl.
  - apply IH.
    + now apply (factories_kept_apply (Add entry filename)).
    + now apply (inner_factories_kept_apply (Add entry filename)).
    + now apply balanced_add.
  - apply IH; [exact factories_kept_init | exact inner_factories_kept_init
              | exact balanced_init].
Qed.

Lemma balanced_reachable (ops : list op) :
  Ledger.balanced (run ops init) (added [] ops).
Proof.
  apply balanced_run; [exact factories_kept_init
                      | exact inner_factories_kept_init | exact balanced_init].
Qed.

End LedgerFacts.

Section LedgerTheorems.
Import DefaultDict LogAnalyzer.

Lemma filter_filter_and {A : Type} (p q : A -> bool) (l : list A) :
  filter q (filter p l) = filter (fun x => p x && q x) l.
Proof.
  induction l as [|x l IH]; simpl; [reflexivity | ].
  destruct (p x); simpl; [destruct (q x) | ]; now rewrite IH.
Qed.

Lemma lookup_step_frequency (s : string) (self : t) :
  Dict.lookup s (step_frequency self)
  = option_map data (Dict.lookup s (data (step_counts self))).
Proof.
  unfold step_frequency.
  induction (data (step_counts self)) as [|[k v] d IH]; simpl;
    [reflexivity | ].
  destruct (String.eqb s k); [reflexivity | exact IH].
Qed.

Lemma keys_step_frequency (self : t) :
  Dict.keys (step_frequency self) = Dict.keys (data (step_counts self)).
Proof.
  unfold step_frequency, Dict.keys. rewrite map_map. reflexivity.
Qed.

(** After any sequence of [add_entry] and [reset] calls on a new analyzer,
    [total_entries] is the number of records added since the last reset,
    whatever their level and step. *)
Theorem total_counts_every_record (ops : list op) :
  total_entries (run ops init) = Ledger.count (added [] ops)
  /\ sum_total_entries (fst (get_summary (run ops init)))
     = Ledger.count (added [] ops).
Proof.
  destruct (balanced_reachable ops) as (Ht & _). now split.
Qed.

(** In every state reached by [add_entry] and [reset] calls, the count
    that [get_level_frequency] gives for a level, read with
    [.get(level, 0)], is the length of the list [get_entries_by_level]
    returns for it. *)
Theorem level_count_is_bucket_length (ops : list op) (lv : string) :
  let self := run ops init in
  Dict.get lv 0%Z (fst (get_level_frequency self))
  = Ledger.count (fst (get_entries_by_level lv self)).
Proof.
  destruct (balanced_reachable ops) as (_ & Hlc & _).
  destruct (buckets_run ops init [] factories_kept_init
              (fun _ => eq_refl) (fun _ => eq_refl)) as [Hl _].
  simpl. rewrite Hl. apply Hlc.
Qed.

(** In every state reached by [add_entry] and [reset] calls, the per-level
    count kept for a step is the number of records of that level in the
    step's bucket, and the steps that have counts are the steps that have
    a bucket, in the same order. *)
Theorem step_counts_match_step_buckets (ops : list op) (s lv : string) :
  let self := run ops init in
  Dict.get lv 0%Z (Dict.get s [] (fst (get_step_frequency self)))
  = Ledger.count (filter (Spec.has_level lv)
                         (fst (get_entries_by_step s self)))
  /\ Dict.keys (fst (get_step_frequency self))
     = Dict.keys (data (entries_by_step self)).
Proof.
  destruct (balanced_reachable ops) as (_ & _ & Hsc & _ & _ & Ks & Kes).
  destruct (buckets_run ops init [] factories_kept_init
              (fun _ => eq_refl) (fun _ => eq_refl)) as [_ Hs].
  simpl. split.
  - rewrite Hs, filter_filter_and, <- Hsc.
    unfold Dict.get at 2. rewrite lookup_step_frequency.
    unfold get, Dict.get.
    now destruct (Dict.lookup s (data (step_counts (run ops init)))).
  - now rewrite keys_step_frequency, Ks, Kes.
Qed.

(** The list of steps in the summary holds each non-empty step of the
    records added since the last reset once, in the order the steps were
    first seen; a step is in it exactly when its bucket is not empty. *)
Theorem summary_steps_first_seen (ops : list op) :
  let self := run ops init in
  let steps := sum_steps (fst (get_summary self)) in
  steps = Ledger.first_seen (flat_map Ledger.filed_step (added [] ops))
  /\ NoDup steps
  /\ forall s, In s steps <-> fst (get_entries_by_step s self) <> [].
Proof.
  destruct (balanced_reachable ops) as (_ & _ & _ & _ & _ & Ks & _).
  destruct (buckets_run ops init [] factories_kept_init
              (fun _ => eq_refl) (fun _ => eq_refl)) as [_ Hs].
  simpl. rewrite Ks. split; [reflexivity | ].
  split; [apply fold_note_key_nodup; constructor | ].
  intros s. rewrite Hs. unfold Ledger.first_seen.
  rewrite fold_note_key_in, in_flat_map. split.
  - intros [[] | (ed & Hin & Hs')].
    assert (Hf : In ed (filter (Spec.has_step s) (added [] ops))).
    { apply filter_In. split; [exact Hin | ].
      unfold Ledger.filed_step in Hs'. unfold Spec.has_step.
      destruct (ed_step ed) as [x|]; [ | destruct Hs'].
      destruct (Str.truthy x); [ | destruct Hs'].
      destruct Hs' as [-> | []]. simpl. apply String.eqb_refl. }
    intros E. rewrite E in Hf. destruct Hf.
  - intros Hne. right.
    destruct (filter (Spec.has_step s) (added [] ops)) as [|ed l] eqn:E;
      [congruence | ].
    assert (Hf : In ed (filter (Spec.has_step s) (added [] ops)))
      by (rewrite E; now left).
    apply filter_In in Hf as [Hin Hp]. exists ed. split; [exact Hin | ].
    unfold Spec.has_step in Hp. unfold Ledger.filed_step.
    destruct (ed_step ed) as [x|]; [ | discriminate].
    destruct (Str.truthy x); [ | discriminate].
    simpl in Hp. apply String.eqb_eq in Hp. now left.
Qed.


Lemma length_by_level (l : list entry_data) :
  List.length l
  = List.length (filter (Spec.has_level "CRITICAL") l)
    + List.length (filter (Spec.has_level "ERROR") l)
    + List.length (filter (Spec.has_level "WARNING") l)
    + List.length
        (filter (fun ed => negb (Ledger.reported_level (ed_level ed))) l).
Proof.
  unfold Ledger.reported_level, Spec.has_level.
  induction l as [|ed l IH]; [reflexivity | ].
  cbn [filter].
  destruct (String.eqb (ed_level ed) "CRITICAL") eqn:Ec.
  - apply String.eqb_eq in Ec. rewrite Ec. simpl. lia.
  - destruct (String.eqb (ed_level ed) "ERROR") eqn:Ee.
    + apply String.eqb_eq in Ee. rewrite Ee. simpl. lia.
    + destruct (String.eqb (ed_level ed) "WARNING") eqn:Ew; simpl; lia.
Qed.

Lemma count_by_level (l : list entry_data) :
  Ledger.count l
  = (Ledger.count (filter (Spec.has_level "CRITICAL") l)
     + Ledger.count (filter (Spec.has_level "ERROR") l)
     + Ledger.count (filter (Spec.has_level "WARNING") l)
     + Ledger.count
         (filter (fun ed => negb (Ledger.reported_level (ed_level ed))) l))%Z.
Proof.
  unfold Ledger.count. rewrite (length_by_level l) at 1. lia.
Qed.

(** [total_entries] is the sum of the three counts the reports show plus
    the number of stored records whose level is none of CRITICAL, ERROR,
    WARNING; for records that all come from the classifier the three
    counts add up to the total. *)
Theorem total_is_three_levels_plus_others (ops : list op) :
  let self := run ops init in
  let shown lv := Dict.get lv 0%Z (fst (get_level_frequency self)) in
  total_entries self
  = (shown "CRITICAL" + shown "ERROR" + shown "WARNING"
     + Ledger.count
         (filter (fun ed => negb (Ledger.reported_level (ed_level ed)))
                 (added [] ops)))%Z.
Proof.
  destruct (balanced_reachable ops) as (Ht & Hlc & _).
  simpl. rewrite Ht. unfold get in Hlc. rewrite !Hlc. apply count_by_level.
Qed.

End LedgerTheorems.

(** ** The scanner's output *)

Section ScanFacts.
Variable fs : filesystem.

Lemma parse_line_number (line : string) (n : Z) (e : LogEntry) :
  _parse_line line n = Ok (Some e) ->
  line_number e = n /\ message e = Str.strip line.
Proof.
  rewrite parse_line_shape. intros H. injection H as H.
  destruct (if found (Re.search CRITICAL_PATTERN line) then _ else _);
    [ | discriminate].
  injection H as <-. now split.
Qed.

Lemma parse_lines_events (lines : list string) :
  forall (k : nat) (err : option exn),
    parse_lines lines (Z.of_nat k) err
    = MkGen (map Yield
               (flat_map Scan.record_at
                  (combine (map Z.of_nat (seq (S k) (List.length lines)))
                           lines)))
            err.
Proof.
  induction lines as [|line rest IH]; intros k err; [reflexivity | ].
  cbn [parse_lines List.length seq map combine flat_map].
  replace (Z.of_nat k + 1)%Z with (Z.of_nat (S k)) by lia.
  unfold Scan.record_at at 1. cbn [fst snd].
  destruct (parse_line_level line (Z.of_nat (S k))) as (r & Hr & _).
  rewrite Hr, IH. now destruct r.
Qed.

Lemma yields_map_Yield {A : Type} (l : list A) : yields (map Yield l) = l.
Proof. induction l as [|x l IH]; simpl; [reflexivity | now rewrite IH]. Qed.

Lemma prints_map_Yield {A : Type} (l : list A) :
  prints (map (@Yield A) l) = [].
Proof. induction l as [|x l IH]; simpl; [reflexivity | exact IH]. Qed.

Lemma records_after (lines : list string) :
  forall k : nat,
    Forall (fun e => (Z.of_nat k < line_number e
                      <= Z.of_nat (k + List.length lines))%Z
                     /\ exists line,
                          nth_error lines (Z.to_nat (line_number e)
                                           - S k) = Some line
                          /\ message e = Str.strip line)
           (flat_map Scan.record_at
              (combine (map Z.of_nat (seq (S k) (List.length lines))) lines)).
Proof.
  induction lines as [|line rest IH]; intros k; [constructor | ].
  cbn [List.length seq map combine flat_map].
  apply Forall_app. split.
  - unfold Scan.record_at. cbn [fst snd].
    destruct (_parse_line line (Z.of_nat (S k))) as [[e|]|] eqn:E;
      constructor; [ | constructor].
    apply parse_line_number in E as [Hn Hm]. rewrite Hn.
    split; [lia | ]. exists line. split; [ | exact Hm].
    replace (Z.to_nat (Z.of_nat (S k)) - S k) with 0 by lia. reflexivity.
  - eapply Forall_impl; [ | apply (IH (S k))].
    intros e [Hr (l & Hl & Hm)]. split; [simpl List.length; lia | ].
    exists l. split; [ | exact Hm].
    replace (Z.to_nat (line_number e) - S k)
      with (S (Z.to_nat (line_number e) - S (S k))) by lia.
    exact Hl.
Qed.

Lemma records_increasing (lines : list string) :
  forall k : nat,
    StronglySorted (fun a b => (line_number a < line_number b)%Z)
      (flat_map Scan.record_at
         (combine (map Z.of_nat (seq (S k) (List.length lines))) lines)).
Proof.
  induction lines as [|line rest IH]; intros k; [constructor | ].
  cbn [List.length seq map combine flat_map].
  unfold Scan.record_at at 1. cbn [fst snd].
  destruct (_parse_line line (Z.of_nat (S k))) as [[e|]|] eqn:E;
    cbn [app]; try apply IH.
  constructor; [apply IH | ].
  apply parse_line_number in E as [Hn _].
  eapply Forall_impl; [ | apply (records_after rest (S k))].
  intros e' [Hr _]. lia.
Qed.

(** For a file that is read to its end, [parse_file] prints nothing and
    yields, in file order, the records of the lines that have a marker;
    their line numbers are the 1-based positions of those lines, so they
    increase strictly, and each message is its line stripped. *)
Theorem parse_file_yields_in_file_order (filepath encoding : string)
    (lines : list string) :
  fs filepath encoding = Ok (MkFile lines None) ->
  let g := parse_file fs filepath encoding in
  raised g = None
  /\ prints (events g) = []
  /\ yields (events g) = flat_map Scan.record_at (Scan.numbered lines)
  /\ StronglySorted (fun a b => (line_number a < line_number b)%Z)
                    (yields (events g))
  /\ Forall (fun e => (1 <= line_number e <= Ledger.count lines)%Z
                      /\ exists line,
                           nth_error lines (Z.to_nat (line_number e) - 1)
                           = Some line
                           /\ message e = Str.strip line)
            (yields (events g)).
Proof.
  intros H g. subst g. unfold parse_file, parse_file_try. rewrite H.
  cbn [file_lines read_error].
  change (parse_lines lines 0 None)
    with (parse_lines lines (Z.of_nat 0) None).
  rewrite (parse_lines_events lines 0 None). cbn [raised events].
  rewrite yields_map_Yield, prints_map_Yield. unfold Scan.numbered.
  repeat split.
  - apply records_increasing.
  - eapply Forall_impl; [ | apply (records_after lines 0)].
    intros e [Hr Hl]. unfold Ledger.count. split; [lia | exact Hl].
Qed.

(** When a read fails part of the way through a file, [parse_file] still
    yields the records of the lines read before, then prints the error
    once and ends normally. *)
Theorem parse_file_keeps_records_before_read_error
    (filepath encoding : string) (lines : list string) (e : exn) :
  fs filepath encoding = Ok (MkFile lines (Some e)) ->
  let g := parse_file fs filepath encoding in
  raised g = None
  /\ events g
     = (map Yield (flat_map Scan.record_at (Scan.numbered lines))
        ++ [Print (Scan.error_line filepath e)])%list
  /\ yields (events g) = flat_map Scan.record_at (Scan.numbered lines)
  /\ prints (events g) = [Scan.error_line filepath e].
Proof.
  intros H g. subst g. unfold parse_file, parse_file_try. rewrite H.
  cbn [file_lines read_error].
  change (parse_lines lines 0 (Some e))
    with (parse_lines lines (Z.of_nat 0) (Some e)).
  rewrite (parse_lines_events lines 0 (Some e)). cbn [raised events].
  unfold Scan.numbered, Scan.error_line. repeat split.
  - now rewrite yields_app, yields_map_Yield, app_nil_r.
  - induction (flat_map _ _) as [|x l IH]; [reflexivity | exact IH].
Qed.

Lemma yields_tag (filepath : string) (l : list (event LogEntry)) :
  yields (map (tag filepath) l) = map (pair filepath) (yields l).
Proof.
  induction l as [|[x|t] l IH]; simpl; [reflexivity | | exact IH].
  now rewrite IH.
Qed.

Lemma prints_tag (filepath : string) (l : list (event LogEntry)) :
  prints (map (tag filepath) l) = prints l.
Proof.
  induction l as [|[x|t] l IH]; simpl; [reflexivity | exact IH | ].
  now rewrite IH.
Qed.

Lemma prints_app {A : Type} (a b : list (event A)) :
  prints (a ++ b)%list = (prints a ++ prints b)%list.
Proof.
  induction a as [|[x|t] a IH]; simpl; [reflexivity | exact IH | ].
  now rewrite IH.
Qed.

(** [parse_multiple_files] ends normally for every list of paths; it
    yields the records of each file in the order the files are given,
    each paired with the path of its file, and prints what [parse_file]
    prints for them. *)
Theorem parse_multiple_files_concatenates (filepaths : list string)
    (encoding : string) :
  let g := parse_multiple_files fs filepaths encoding in
  raised g = None
  /\ yields (events g)
     = flat_map (fun p => map (pair p)
                              (yields (events (parse_file fs p encoding))))
                filepaths
  /\ prints (events g)
     = flat_map (fun p => prints (events (parse_file fs p encoding)))
                filepaths
  /\ Forall (fun pe => In (fst pe) filepaths) (yields (events g)).
Proof.
  cbn zeta. split; [apply parse_multiple_files_returns | ].
  assert (Hy : yields (events (parse_multiple_files fs filepaths encoding))
               = flat_map (fun p => map (pair p)
                             (yields (events (parse_file fs p encoding))))
                          filepaths).
  { induction filepaths as [|p rest IH]; [reflexivity | ].
    rewrite parse_multiple_files_step. cbn [events flat_map].
    now rewrite yields_app, yields_tag, IH. }
  assert (Hp : prints (events (parse_multiple_files fs filepaths encoding))
               = flat_map (fun p => prints (events (parse_file fs p encoding)))
                          filepaths).
  { clear Hy. induction filepaths as [|p rest IH]; [reflexivity | ].
    rewrite parse_multiple_files_step. cbn [events flat_map].
    now rewrite prints_app, prints_tag, IH. }
  split; [exact Hy | ]. split; [exact Hp | ].
  - rewrite Hy. apply Forall_forall. intros [p e] Hin.
    apply in_flat_map in Hin as (q & Hq & Hin).
    apply in_map_iff in Hin as (e' & [= <- <-] & _). exact Hq.
Qed.

End ScanFacts.

Lemma parse_file_in_file_order_witness :
  let g := parse_file sample_fs "app.log" "utf-8" in
  let lines := ["ok" ++ nl; "[STEP:Load] ERROR: failed" ++ nl;
                "WARNING: slow" ++ nl] in
  raised g = None
  /\ prints (events g) = []
  /\ yields (events g) = flat_map Scan.record_at (Scan.numbered lines)
  /\ StronglySorted (fun a b => (line_number a < line_number b)%Z)
                    (yields (events g))
  /\ Forall (fun e => (1 <= line_number e <= Ledger.count lines)%Z
                      /\ exists line,
                           nth_error lines (Z.to_nat (line_number e) - 1)
                           = Some line
                           /\ message e = Str.strip line)
            (yields (events g)).
Proof.
  apply (parse_file_yields_in_file_order sample_fs "app.log" "utf-8").
  reflexivity.
Defined.

Lemma parse_file_read_error_witness :
  let g := parse_file broken_fs "disk.log" "utf-8" in
  let lines := ["CRITICAL: disk" ++ nl] in
  let e := Exn "[Errno 5] Input/output error" in
  raised g = None
  /\ events g
     = (map Yield (flat_map Scan.record_at (Scan.numbered lines))
        ++ [Print (Scan.error_line "disk.log" e)])%list
  /\ yields (events g) = flat_map Scan.record_at (Scan.numbered lines)
  /\ prints (events g) = [Scan.error_line "disk.log" e].
Proof.
  apply (parse_file_keeps_records_before_read_error broken_fs "disk.log"
           "utf-8").
  reflexivity.
Defined.

(** ** Whitespace around a line *)

Section Trimming.

Lemma last_or_app (d : option ascii) (a b : string) :
  Str.last_or d (a ++ b) = Str.last_or (Str.last_or d a) b.
Proof.
  revert d. induction a as [|x a IH]; simpl; intros d; [reflexivity | apply IH].
Qed.

Lemma all_app (f : ascii -> bool) (a b : string) :
  Str.all f (a ++ b) = Str.all f a && Str.all f b.
Proof.
  induction a as [|x a IH]; simpl; [reflexivity | ].
  now rewrite IH, andb_assoc.
Qed.

Lemma space_not_word (c : ascii) : isspace c = true -> is_word c = false.
Proof.
  destruct c as [[] [] [] [] [] [] [] []]; vm_compute; congruence.
Qed.

Lemma all_space_head (s : string) :
  Str.all isspace s = true ->
  match Str.head s with Some c => isspace c = true | None => True end.
Proof.
  destruct s as [|c s]; simpl; [trivial | ].
  intros H. now apply andb_prop in H as [H _].
Qed.

Lemma all_space_last_or (s : string) :
  forall d,
    match d with Some c => isspace c = true | None => True end ->
    Str.all isspace s = true ->
    match Str.last_or d s with Some c => isspace c = true | None => True end.
Proof.
  induction s as [|c s IH]; simpl; intros d Hd H; [exact Hd | ].
  apply andb_prop in H as [Hc Hs]. now apply IH.
Qed.

Lemma append_split (a b c d : string) :
  a ++ b = c ++ d ->
  (exists x, a = c ++ x /\ d = x ++ b)
  \/ (exists x, c = a ++ x /\ b = x ++ d).
Proof.
  revert c. induction a as [|x a IH]; intros c H; simpl in H.
  - right. exists c. auto.
  - destruct c as [|y c]; simpl in H.
    + left. exists (String x a). auto.
    + injection H as <- H. destruct (IH c H) as [(z & -> & ->) | (z & -> & ->)].
      * left. exists z. auto.
      * right. exists z. auto.
Qed.

(** A part [t] of a padded string that neither starts nor ends with
    whitespace lies inside the unpadded string. *)
Lemma part_inside (l s r pre t post : string) :
  Str.all isspace l = true ->
  Str.all isspace r = true ->
  match Str.head t with Some c => isspace c = false | None => False end ->
  match Str.last t with Some c => isspace c = false | None => False end ->
  l ++ s ++ r = pre ++ t ++ post ->
  exists pre' post',
    pre = l ++ pre' /\ post = post' ++ r /\ s = pre' ++ t ++ post'.
Proof.
  intros Hl Hr Hh Hlast H.
  destruct (append_split _ _ _ _ H) as [(x & -> & Hx) | (x & -> & Hx)].
  - (* l = pre ++ x *)
    destruct x as [|c x].
    + rewrite append_nil_r in *. simpl in Hx.
      assert (H' : s ++ r = t ++ post) by (now rewrite Hx).
      clear H Hx.
      destruct (append_split _ _ _ _ H') as [(y & -> & Hy) | (y & -> & Hy)].
      * exists "", y. rewrite append_nil_r. simpl.
        rewrite Hy. auto.
      * destruct y as [|c y].
        -- exists "", "". rewrite !append_nil_r. simpl in Hy. simpl. auto.
        -- exfalso. rewrite Hy in Hr. rewrite all_app in Hr.
           apply andb_prop in Hr as [Hy' _].
           unfold Str.last in Hlast. rewrite last_or_app in Hlast.
           simpl in Hlast, Hy'. apply andb_prop in Hy' as [Hc Hy'].
           pose proof (all_space_last_or y (Some c) Hc Hy') as Hs.
           destruct (Str.last_or (Some c) y); [congruence | exact Hlast].
    + exfalso. rewrite all_app in Hl. apply andb_prop in Hl as [_ Hl].
      simpl in Hl. apply andb_prop in Hl as [Hc _].
      destruct t as [|c' t]; [exact Hh | ].
      simpl in Hx. injection Hx as -> _. simpl in Hh. congruence.
  - (* pre = l ++ x *)
    assert (H' : s ++ r = (x ++ t) ++ post).
    { rewrite append_assoc in H. apply append_eq_length in H as [_ H];
        [ | reflexivity]. now rewrite append_assoc. }
    destruct (append_split _ _ _ _ H') as [(y & -> & Hy) | (y & Hy1 & Hy)].
    + exists x, y. now rewrite append_assoc.
    + destruct y as [|c y].
      * exists x, "". rewrite append_nil_r in Hy1. simpl in Hy.
        rewrite !append_nil_r. subst. auto.
      * exfalso. rewrite Hy in Hr. rewrite all_app in Hr.
        apply andb_prop in Hr as [Hy' _].
        assert (E : Str.last_or None (x ++ t) = Str.last_or None (s ++ String c y))
          by (now rewrite Hy1).
        rewrite !last_or_app in E.
        destruct t as [|c' t]; [exact Hh | ].
        unfold Str.last in Hlast. simpl in Hlast, E, Hy'.
        apply andb_prop in Hy' as [Hc Hy'].
        pose proof (all_space_last_or y (Some c) Hc Hy') as Hs.
        rewrite <- E in Hs.
        destruct (Str.last_or (Some c') t); [congruence | exact Hlast].
Qed.

End Trimming.

Section Padding.

Lemma word_not_space (c : ascii) : is_word c = true -> isspace c = false.
Proof.
  intros H. destruct (isspace c) eqn:E; [ | reflexivity].
  apply space_not_word in E. congruence.
Qed.

Lemma space_opt_not_word (d : option ascii) :
  match d with Some c => isspace c = true | None => True end ->
  Re.word_opt d = false.
Proof. destruct d as [c|]; simpl; [apply space_not_word | reflexivity]. Qed.

Lemma str_length_app (a b : string) :
  String.length (a ++ b) = String.length a + String.length b.
Proof. induction a as [|x a IH]; simpl; [reflexivity | now rewrite IH]. Qed.

Lemma rstrip_space (s : string) :
  Str.all isspace s = true -> Str.rstrip s = "".
Proof.
  induction s as [|c s IH]; simpl; [reflexivity | ].
  intros H. apply andb_prop in H as [Hc Hs]. now rewrite (IH Hs), Hc.
Qed.

Lemma rstrip_padded (s r : string) :
  match Str.last s with Some c => isspace c = false | None => True end ->
  Str.all isspace r = true ->
  Str.rstrip (s ++ r) = s.
Proof.
  intros Hl Hr. induction s as [|c s IH]; simpl.
  - now apply rstrip_space.
  - destruct s as [|c' s].
    + simpl. rewrite (rstrip_space r Hr). unfold Str.last in Hl. simpl in Hl.
      now rewrite Hl.
    + rewrite IH; [reflexivity | exact Hl].
Qed.

Lemma lstrip_padded (l s : string) :
  Str.all isspace l = true ->
  Str.lstrip (l ++ s) = Str.lstrip s.
Proof.
  induction l as [|c l IH]; simpl; [reflexivity | ].
  intros H. apply andb_prop in H as [Hc Hl]. rewrite Hc. now apply IH.
Qed.

Lemma lstrip_fixed (s : string) :
  match Str.head s with Some c => isspace c = false | None => True end ->
  Str.lstrip s = s.
Proof. destruct s as [|c s]; simpl; [reflexivity | now intros ->]. Qed.

Lemma strip_padded (l s r : string) :
  Str.all isspace l = true ->
  Str.all isspace r = true ->
  match Str.head s with Some c => isspace c = false | None => True end ->
  match Str.last s with Some c => isspace c = false | None => True end ->
  Str.strip (l ++ s ++ r) = s.
Proof.
  intros Hl Hr Hh Hlast. unfold Str.strip. rewrite (lstrip_padded l _ Hl).
  destruct s as [|c s].
  - simpl. now rewrite (lstrip_all_space r Hr).
  - rewrite (lstrip_fixed (String c s ++ r)) by exact Hh.
    now apply rstrip_padded.
Qed.

Lemma occurs_padded (kw l s r : string) :
  Re.word_opt (Str.head kw) = true ->
  Re.word_opt (Str.last kw) = true ->
  Str.all isspace l = true ->
  Str.all isspace r = true ->
  Spec.occurs_as_word kw (l ++ s ++ r) <-> Spec.occurs_as_word kw s.
Proof.
  intros Hkh Hkl Hl Hr. split.
  - intros (pre & mid & post & Heq & Hci & Hb & Ha).
    assert (Hmh : Re.word_opt (Str.head mid) = true)
      by (now rewrite (ci_eq_head _ _ Hci)).
    assert (Hml : Re.word_opt (Str.last mid) = true)
      by (unfold Str.last; now rewrite (ci_eq_last_nonempty _ _ None None Hci Hkh)).
    destruct (part_inside l s r pre mid post Hl Hr) as (pre' & post' & -> & -> & ->).
    + destruct (Str.head mid) as [c|]; [now apply word_not_space | discriminate].
    + destruct (Str.last mid) as [c|]; [now apply word_not_space | discriminate].
    + exact Heq.
    + exists pre', mid, post'. repeat split; auto.
      * destruct pre' as [|c p]; [reflexivity | ].
        unfold Str.last in *. now rewrite last_or_app in Hb.
      * destruct post' as [|c p]; [reflexivity | exact Ha].
  - intros (pre & mid & post & -> & Hci & Hb & Ha).
    exists (l ++ pre), mid, (post ++ r). rewrite !append_assoc.
    repeat split; auto.
    + unfold Str.last in *. rewrite last_or_app.
      destruct pre as [|c p]; [ | exact Hb]. simpl.
      apply space_opt_not_word. now apply all_space_last_or.
    + destruct post as [|c p]; [ | exact Ha]. simpl.
      apply space_opt_not_word. now apply all_space_head.
Qed.

Lemma ci_eqb_open_bracket (d : ascii) : ci_eqb d "[" = Ascii.eqb d "[".
Proof.
  destruct d as [[] [] [] [] [] [] [] []]; vm_compute; reflexivity.
Qed.

Lemma step_tag_padded (l s r pre body post : string) :
  Str.all isspace l = true ->
  Str.all isspace r = true ->
  Spec.step_tag (l ++ s ++ r) pre body post ->
  exists pre' post',
    pre = l ++ pre' /\ post = post' ++ r /\ Spec.step_tag s pre' body post'.
Proof.
  intros Hl Hr (open & Heq & Hci & Hne & Hall).
  destruct (part_inside l s r pre (open ++ body ++ "]") post Hl Hr)
    as (pre' & post' & -> & -> & ->).
  - destruct open as [|c o]; [discriminate | ]. simpl in Hci |- *.
    apply andb_prop in Hci as [Hc _]. rewrite ci_eqb_open_bracket in Hc.
    apply Ascii.eqb_eq in Hc as ->. reflexivity.
  - unfold Str.last. rewrite !last_or_app. reflexivity.
  - rewrite Heq, !append_assoc. reflexivity.
  - exists pre', post'. repeat split.
    exists open. rewrite !append_assoc. auto.
Qed.

Lemma step_tag_pad (l s r pre body post : string) :
  Spec.step_tag s pre body post ->
  Spec.step_tag (l ++ s ++ r) (l ++ pre) body (post ++ r).
Proof.
  intros (open & -> & Hci & Hne & Hall). exists open.
  rewrite !append_assoc. auto.
Qed.

Lemma first_step_tag_padded (l s r body : string) :
  Str.all isspace l = true ->
  Str.all isspace r = true ->
  Spec.first_step_tag (l ++ s ++ r) body <-> Spec.first_step_tag s body.
Proof.
  intros Hl Hr. split.
  - intros (pre & post & Ht & Hfirst).
    destruct (step_tag_padded _ _ _ _ _ _ Hl Hr Ht) as (pre' & post' & -> & -> & Ht').
    exists pre', post'. split; [exact Ht' | ].
    intros p b q Hq. apply (step_tag_pad l s r) in Hq.
    apply Hfirst in Hq. rewrite !str_length_app in Hq. lia.
  - intros (pre & post & Ht & Hfirst).
    exists (l ++ pre), (post ++ r). split; [now apply step_tag_pad | ].
    intros p b q Hq.
    destruct (step_tag_padded _ _ _ _ _ _ Hl Hr Hq) as (p' & q' & -> & -> & Hq').
    apply Hfirst in Hq'. rewrite !str_length_app. lia.
Qed.

Lemma search_step_padded (l s r : string) :
  Str.all isspace l = true ->
  Str.all isspace r = true ->
  Re.search STEP_PATTERN (l ++ s ++ r) = Re.search STEP_PATTERN s.
Proof.
  intros Hl Hr.
  destruct (Re.search STEP_PATTERN (l ++ s ++ r)) as [m|] eqn:E1;
    destruct (Re.search STEP_PATTERN s) as [m'|] eqn:E2.
  - apply search_step_some in E1 as (b & Hb & Hg).
    apply search_step_some in E2 as (b' & Hb' & Hg').
    apply (first_step_tag_padded l s r b' Hl Hr) in Hb'.
    rewrite (first_step_tag_unique _ _ _ Hb Hb') in Hg.
    destruct m, m'. simpl in *. congruence.
  - apply search_step_some in E1 as (b & Hb & _).
    apply (first_step_tag_padded l s r b Hl Hr) in Hb.
    destruct Hb as (pre & post & Ht & _).
    now destruct (search_step_none _ E2 _ _ _ Ht).
  - apply search_step_some in E2 as (b & Hb & _).
    apply (first_step_tag_padded l s r b Hl Hr) in Hb.
    destruct Hb as (pre & post & Ht & _).
    now destruct (search_step_none _ E1 _ _ _ Ht).
  - reflexivity.
Qed.

Lemma found_padded (kw l s r : string) :
  Re.word_opt (Str.head kw) = true ->
  Re.word_opt (Str.last kw) = true ->
  Str.all isspace l = true ->
  Str.all isspace r = true ->
  found (Re.search ([Re.Bound] ++ Re.lits kw ++ [Re.Bound])%list (l ++ s ++ r))
  = found (Re.search ([Re.Bound] ++ Re.lits kw ++ [Re.Bound])%list s).
Proof.
  intros Hh Hk Hl Hr.
  pose proof (search_word kw (l ++ s ++ r) Hh Hk) as [A1 A2].
  pose proof (search_word kw s Hh Hk) as [B1 B2].
  pose proof (occurs_padded kw l s r Hh Hk Hl Hr) as [C1 C2].
  destruct (found (Re.search _ (l ++ s ++ r))) eqn:E1;
    destruct (found (Re.search _ s)) eqn:E2;
    try reflexivity.
  - symmetry. apply B2, C1, A1. reflexivity.
  - apply A2, C2, B1. reflexivity.
Qed.

Lemma parse_line_padded (l s r : string) (n : Z) :
  Str.all isspace l = true ->
  Str.all isspace r = true ->
  match Str.head s with Some c => isspace c = false | None => True end ->
  match Str.last s with Some c => isspace c = false | None => True end ->
  _parse_line (l ++ s ++ r) n = _parse_line s n.
Proof.
  intros Hl Hr Hh Hlast. rewrite !parse_line_shape.
  unfold CRITICAL_PATTERN, ERROR_PATTERN, WARNING_PATTERN.
  rewrite (found_padded "CRITICAL" l s r eq_refl eq_refl Hl Hr).
  rewrite (found_padded "ERROR" l s r eq_refl eq_refl Hl Hr).
  rewrite (found_padded "WARNING" l s r eq_refl eq_refl Hl Hr).
  rewrite (search_step_padded l s r Hl Hr).
  rewrite (strip_padded l s r Hl Hr Hh Hlast).
  pose proof (strip_padded "" s "" eq_refl eq_refl Hh Hlast) as Hs.
  simpl in Hs. rewrite append_nil_r in Hs. now rewrite Hs.
Qed.

(** Whitespace at the two ends of a line never changes what the
    classifier returns: the stripped line gives the same result as the
    line, so does the line with more whitespace put around it, and a
    record's message, parsed again, gives the record back. *)
Theorem parse_line_ignores_outer_whitespace (line : string) (n : Z) :
  _parse_line (Str.strip line) n = _parse_line line n
  /\ (forall l r,
        Str.all isspace l = true -> Str.all isspace r = true ->
        _parse_line (l ++ line ++ r) n = _parse_line line n)
  /\ match _parse_line line n with
     | Ok (Some e) => _parse_line (message e) n = Ok (Some e)
     | Ok None => True
     | Raise _ => True
     end.
Proof.
  destruct (strip_trimmed line) as (l0 & r0 & Heq & Hl0 & Hr0 & Hh & Hlast).
  assert (H1 : _parse_line (Str.strip line) n = _parse_line line n).
  { rewrite Heq at 2. symmetry. now apply parse_line_padded. }
  split; [exact H1 | ]. split.
  - intros l r Hl Hr. rewrite <- H1. rewrite Heq at 1.
    replace (l ++ (l0 ++ Str.strip line ++ r0) ++ r)
      with ((l ++ l0) ++ Str.strip line ++ (r0 ++ r))
      by (now rewrite !append_assoc).
    apply parse_line_padded; auto; rewrite all_app;
      [now rewrite Hl, Hl0 | now rewrite Hr0, Hr].
  - destruct (_parse_line line n) as [[e|]|] eqn:E; auto.
    apply parse_line_number in E as [_ ->]. exact H1.
Qed.

End Padding.

(** ** The CSV reports *)

Section CsvFacts.
Import DefaultDict LogAnalyzer CSVReporter.

Lemma write_entry_rows (entries : list entry_data) :
  forall f, fold_left write_entry_row entries f
            = (f ++ map entry_cells entries)%list.
Proof.
  induction entries as [|e entries IH]; intros f; simpl.
  - now rewrite app_nil_r.
  - rewrite IH. unfold write_entry_row, writerow. now rewrite <- app_assoc.
Qed.

Lemma write_step_rows (items : list (string * Dict.dict Z)) :
  forall f, fold_left write_step_counts items f
            = (f ++ map step_cells items)%list.
Proof.
  induction items as [|[s c] items IH]; intros f; simpl.
  - now rewrite app_nil_r.
  - rewrite IH. unfold writerow. now rewrite <- app_assoc.
Qed.

Lemma three_levels_permutation (l : list entry_data) :
  Permutation
    (filter (Spec.has_level "CRITICAL") l
     ++ filter (Spec.has_level "ERROR") l
     ++ filter (Spec.has_level "WARNING") l)%list
    (filter reported l).
Proof.
  unfold reported, Ledger.reported_level, Spec.has_level.
  induction l as [|ed l IH]; [constructor | ].
  cbn [filter].
  destruct (String.eqb (ed_level ed) "CRITICAL") eqn:Ec.
  - apply String.eqb_eq in Ec. rewrite Ec. simpl. now constructor.
  - destruct (String.eqb (ed_level ed) "ERROR") eqn:Ee.
    + apply String.eqb_eq in Ee. rewrite Ee. simpl.
      apply Permutation_sym, Permutation_cons_app, Permutation_sym, IH.
    + destruct (String.eqb (ed_level ed) "WARNING") eqn:Ew; simpl.
      * rewrite app_assoc.
        apply Permutation_sym, Permutation_cons_app, Permutation_sym.
        rewrite <- app_assoc. exact IH.
      * exact IH.
Qed.

Lemma detailed_rows_shape (ops : list op) :
  generate_detailed_report (run ops init)
  = ([Text "Level"; Text "Step"; Text "Line Number"; Text "Filename";
      Text "Message"]
     :: map entry_cells
          (filter (Spec.has_level "CRITICAL") (added [] ops)
           ++ filter (Spec.has_level "ERROR") (added [] ops)
           ++ filter (Spec.has_level "WARNING") (added [] ops))%list,
     run ops init).
Proof.
  destruct (buckets_run ops init [] factories_kept_init
              (fun _ => eq_refl) (fun _ => eq_refl)) as [Hl _].
  unfold generate_detailed_report, write_level_rows, get_entries_by_level.
  cbn [fold_left]. rewrite !write_entry_rows, !Hl.
  unfold writerow. cbn [app].
  now rewrite !map_app, <- !app_assoc.
Qed.

(** The detailed CSV report of an analyzer filled by [add_entry] calls is
    the heading row followed by one row for each stored record of level
    CRITICAL, then ERROR, then WARNING, in the order the records were
    added within a level; each stored record of these levels has exactly
    one row, records of any other level have none, and the analyzer is
    left as it was. *)
Theorem csv_detailed_rows (ops : list op) :
  let self := run ops init in
  let stored := added [] ops in
  let shown := (filter (Spec.has_level "CRITICAL") stored
                ++ filter (Spec.has_level "ERROR") stored
                ++ filter (Spec.has_level "WARNING") stored)%list in
  generate_detailed_report self
  = ([Text "Level"; Text "Step"; Text "Line Number"; Text "Filename";
      Text "Message"] :: map entry_cells shown, self)
  /\ Permutation shown (filter reported stored)
  /\ Ledger.count (fst (generate_detailed_report self))
     = (1 + total_entries self
        - Ledger.count (filter (fun ed => negb (reported ed)) stored))%Z.
Proof.
  intros self stored shown.
  assert (Hrows : generate_detailed_report self
                  = ([Text "Level"; Text "Step"; Text "Line Number";
                      Text "Filename"; Text "Message"]
                     :: map entry_cells shown, self))
    by apply detailed_rows_shape.
  split; [exact Hrows | ].
  split; [apply three_levels_permutation | ].
  rewrite Hrows. cbn [fst]. unfold Ledger.count. cbn [List.length].
  rewrite length_map. subst shown.
  rewrite (Permutation_length (three_levels_permutation stored)).
  destruct (balanced_reachable ops) as (Ht & _). fold self stored in Ht.
  rewrite Ht. unfold Ledger.count.
  assert (Hsplit : List.length stored
                   = List.length (filter reported stored)
                     + List.length (filter (fun ed => negb (reported ed)) stored)).
  { clear. induction stored as [|ed l IH]; [reflexivity | ].
    simpl. destruct (reported ed); simpl; lia. }
  lia.
Qed.

Lemma insert_item_permutation {V : Type} (x : string * V)
    (l : list (string * V)) :
  Permutation (insert_item x l) (x :: l).
Proof.
  induction l as [|y l IH]; simpl; [reflexivity | ].
  destruct (String.leb (fst x) (fst y)); [reflexivity | ].
  rewrite IH. apply perm_swap.
Qed.

Lemma insert_item_sorted {V : Type} (x : string * V)
    (l : list (string * V)) :
  Sorted by_step l -> Sorted by_step (insert_item x l).
Proof.
  induction l as [|y l IH]; simpl; intros Hs; [repeat constructor | ].
  destruct (String.leb (fst x) (fst y)) eqn:E.
  - constructor; [exact Hs | constructor; exact E].
  - apply Sorted_inv in Hs as [Hs Hhd].
    constructor; [now apply IH | ].
    assert (Hyx : by_step y x).
    { unfold by_step. destruct (String.leb_total (fst x) (fst y)) as [H | H];
        congruence. }
    destruct l as [|z l]; simpl; [now constructor | ].
    destruct (String.leb (fst x) (fst z)); constructor; [exact Hyx | ].
    now inversion Hhd.
Qed.

Lemma sorted_permutation {V : Type} (items : list (string * V)) :
  Permutation (sorted items) items.
Proof.
  induction items as [|x l IH]; simpl; [constructor | ].
  rewrite insert_item_permutation. now constructor.
Qed.

Lemma sorted_sorted {V : Type} (items : list (string * V)) :
  Sorted by_step (sorted items).
Proof.
  induction items as [|x l IH]; simpl; [constructor | ].
  now apply insert_item_sorted.
Qed.

Lemma summary_rows_shape (summary : Summary) :
  generate_summary_report summary
  = ([[Text "Category"; Text "Value"];
      [Text "Total Entries"; Number (sum_total_entries summary)];
      [];
      [Text "Level"; Text "Count"];
      [Text "CRITICAL";
       Number (Dict.get "CRITICAL" 0%Z (sum_level_counts summary))];
      [Text "ERROR";
       Number (Dict.get "ERROR" 0%Z (sum_level_counts summary))];
      [Text "WARNING";
       Number (Dict.get "WARNING" 0%Z (sum_level_counts summary))];
      []]
     ++ match sum_step_counts summary with
        | [] => []
        | _ :: _ =>
            [Text "Step"; Text "CRITICAL"; Text "ERROR"; Text "WARNING";
             Text "Total"]
            :: map step_cells (sorted (sum_step_counts summary))
        end)%list.
Proof.
  unfold generate_summary_report.
  destruct (sum_step_counts summary) as [|i items'] eqn:E; [reflexivity | ].
  rewrite write_step_rows. reflexivity.
Qed.

(** The summary CSV report is eight fixed rows (heading, total, the three
    levels in the order CRITICAL, ERROR, WARNING, each read with
    [.get(level, 0)], and two empty rows) followed, when the summary has
    steps, by a heading row and one row per step; the step rows hold each
    step of the summary once and come in ascending order of the step
    names. *)
Theorem csv_summary_layout (summary : Summary) :
  let items := sum_step_counts summary in
  let count lv := Number (Dict.get lv 0%Z (sum_level_counts summary)) in
  generate_summary_report summary
  = ([[Text "Category"; Text "Value"];
      [Text "Total Entries"; Number (sum_total_entries summary)];
      [];
      [Text "Level"; Text "Count"];
      [Text "CRITICAL"; count "CRITICAL"];
      [Text "ERROR"; count "ERROR"];
      [Text "WARNING"; count "WARNING"];
      []]
     ++ match items with
        | [] => []
        | _ :: _ =>
            [Text "Step"; Text "CRITICAL"; Text "ERROR"; Text "WARNING";
             Text "Total"] :: map step_cells (sorted items)
        end)%list
  /\ Sorted by_step (sorted items)
  /\ Permutation (sorted items) items.
Proof.
  intros items count. split; [ | split; [apply sorted_sorted
                                        | apply sorted_permutation]].
  subst items count. apply summary_rows_shape.
Qed.




End CsvFacts.

(** ** The command line's loop *)

Section CliFacts.
Import LogAnalyzer Cli.
Variable fs : filesystem.
Variable basename : string -> string.

Lemma run_app (a b : list op) (self : t) :
  run (a ++ b)%list self = run b (run a self).
Proof. unfold run. apply fold_left_app. Qed.

Lemma consume_events (log_file : string) (evs : list (event LogEntry)) :
  forall out analyzer,
    fold_left (consume basename log_file) evs (out, analyzer)
    = ((out ++ prints evs)%list,
       run (map (add_of basename) (map (pair log_file) (yields evs)))
           analyzer).
Proof.
  induction evs as [|[e|t] evs IH]; intros out analyzer; simpl.
  - now rewrite app_nil_r.
  - now rewrite IH.
  - now rewrite IH, <- app_assoc.
Qed.

Lemma process_file_result (verbose : bool) (encoding log_file : string)
    (out : list string) (analyzer : t) :
  process_file fs basename verbose encoding (out, analyzer) log_file
  = ((out ++ lines_for fs verbose encoding log_file)%list,
     run (map (add_of basename)
              (map (pair log_file)
                   (yields (events (parse_file fs log_file encoding)))))
         analyzer).
Proof.
  unfold process_file, lines_for.
  rewrite consume_events, parse_file_returns.
  destruct verbose; now rewrite <- ?app_assoc.
Qed.

Lemma yields_parse_multiple_files (filepaths : list string)
    (encoding : string) :
  yields (events (parse_multiple_files fs filepaths encoding))
  = flat_map (fun p => map (pair p)
                           (yields (events (parse_file fs p encoding))))
             filepaths.
Proof.
  induction filepaths as [|p rest IH]; [reflexivity | ].
  rewrite parse_multiple_files_step. cbn [events flat_map].
  now rewrite yields_app, yields_tag, IH.
Qed.

Lemma process_files_result (verbose : bool) (encoding : string)
    (log_files : list string) :
  forall out analyzer,
    fold_left (process_file fs basename verbose encoding) log_files
              (out, analyzer)
    = ((out ++ flat_map (lines_for fs verbose encoding) log_files)%list,
       run (map (add_of basename)
                (yields (events (parse_multiple_files fs log_files encoding))))
           analyzer).
Proof.
  induction log_files as [|p rest IH]; intros out analyzer.
  - simpl. now rewrite app_nil_r.
  - cbn [fold_left]. rewrite process_file_result, IH.
    rewrite (yields_parse_multiple_files (p :: rest)). cbn [flat_map].
    rewrite map_app, run_app, <- (yields_parse_multiple_files rest).
    now rewrite <- app_assoc.
Qed.

Lemma added_adds (l : list (string * LogEntry)) :
  forall acc,
    List.length (added acc (map (add_of basename) l))
    = List.length acc + List.length l.
Proof.
  induction l as [|pe l IH]; intros acc; simpl; [lia | ].
  rewrite IH, length_app. simpl. lia.
Qed.

(** The loop of [main] over the log files does what the batch scanner
    followed by [add_entry] does: the analyzer holds the records of
    [parse_multiple_files] in their order, each filed under the base name
    of its file; the total is the number of those records; and the only
    lines printed are the progress lines and the scanner's own error
    lines, the loop's [except] branch never being taken. *)
Theorem cli_loop_is_scan_then_add (verbose : bool) (encoding : string)
    (log_files : list string) :
  let batch := yields (events (parse_multiple_files fs log_files encoding)) in
  let result := process_files fs basename verbose encoding log_files init in
  snd result = run (map (add_of basename) batch) init
  /\ fst result = flat_map (lines_for fs verbose encoding) log_files
  /\ total_entries (snd result) = Ledger.count batch.
Proof.
  intros batch result. subst result. unfold process_files.
  rewrite process_files_result. cbn [fst snd app]. fold batch.
  repeat split.
  destruct (balanced_reachable (map (add_of basename) batch)) as (Ht & _).
  rewrite Ht. unfold Ledger.count. now rewrite added_adds.
Qed.

End CliFacts.

(** ** The detailed Markdown report under other caps *)

Section Caps.
Import LogAnalyzer MarkdownReporter.





End Caps.



Example negative_cap_note :
  Pages.cut_section (-1) "ERROR"
    (fst (LogAnalyzer.get_entries_by_level "ERROR"
            (LogAnalyzer.run (sample_ops "ERROR" 3) LogAnalyzer.init)))
  = Pages.heading "ERROR"
      (LogAnalyzer.added [] (sample_ops "ERROR" 3))
    ++ Str.join
         (map (MarkdownReporter.write_entry "")
              (firstn 2 (LogAnalyzer.added [] (sample_ops "ERROR" 3))))
    ++ "*...and 4 more ERROR messages*" ++ nl ++ nl.
Proof. vm_compute. reflexivity. Qed.

(** ** What every record of the classifier has *)

Section Records.
Import LogAnalyzer.

Lemma parse_line_reported (line : string) (n : Z) (e : LogEntry) :
  _parse_line line n = Ok (Some e) ->
  Ledger.reported_level (level e) = true.
Proof.
  rewrite parse_line_shape. intros H. injection H as H.
  destruct (found (Re.search CRITICAL_PATTERN line));
    [ | destruct (found (Re.search ERROR_PATTERN line));
        [ | destruct (found (Re.search WARNING_PATTERN line));
            [ | discriminate]]];
    injection H as <-; reflexivity.
Qed.



End Records.

(** ** From the files to the counts *)

Section Pipeline.
Import LogAnalyzer Cli.
Variable fs : filesystem.
Variable basename : string -> string.

Lemma parse_file_yields_classified (filepath encoding : string)
    (e : LogEntry) :
  In e (yields (events (parse_file fs filepath encoding))) ->
  exists line n, _parse_line line n = Ok (Some e).
Proof.
  unfold parse_file, parse_file_try.
  destruct (fs filepath encoding) as [f | err]; cbn [raised events];
    [ | intros []].
  change (parse_lines (file_lines f) 0 (read_error f))
    with (parse_lines (file_lines f) (Z.of_nat 0) (read_error f)).
  rewrite parse_lines_events. cbn [raised events].
  intros Hin.
  assert (Hin' : In e (flat_map Scan.record_at
                         (combine (map Z.of_nat
                                     (seq 1 (List.length (file_lines f))))
                                  (file_lines f)))).
  { destruct (read_error f); cbn [events] in Hin.
    - rewrite yields_app, yields_map_Yield, app_nil_r in Hin. exact Hin.
    - now rewrite yields_map_Yield in Hin. }
  apply in_flat_map in Hin' as ([k line] & _ & Hrec).
  unfold Scan.record_at in Hrec. cbn [fst snd] in Hrec.
  destruct (_parse_line line k) as [[e'|]|] eqn:E; try destruct Hrec.
  - subst e'. now exists line, k.
  - destruct H.
Qed.

Lemma added_of_adds (l : list (string * LogEntry)) :
  forall acc,
    added acc (map (add_of basename) l)
    = (acc ++ map (fun pe =>
                     MkEntryData (line_number (snd pe)) (message (snd pe))
                                 (level (snd pe)) (step (snd pe))
                                 (Some (basename (fst pe)))) l)%list.
Proof.
  induction l as [|pe l IH]; intros acc; simpl.
  - now rewrite app_nil_r.
  - now rewrite IH, <- app_assoc.
Qed.

Lemma filter_all_false {A : Type} (p : A -> bool) (l : list A) :
  Forall (fun x => p x = false) l -> filter p l = [].
Proof.
  induction 1 as [|x l Hx _ IH]; simpl; [reflexivity | now rewrite Hx].
Qed.

(** After the loop of [main], whatever the files hold, the three counts
    that [main] prints add up to the total it prints, and the detailed
    CSV report has one row for every record besides its heading row. *)
Theorem cli_counts_add_up (verbose : bool) (encoding : string)
    (log_files : list string) :
  let analyzer :=
    snd (process_files fs basename verbose encoding log_files init) in
  let summary := fst (get_summary analyzer) in
  let shown lv := Dict.get lv 0%Z (sum_level_counts summary) in
  sum_total_entries summary
  = (shown "CRITICAL" + shown "ERROR" + shown "WARNING")%Z
  /\ Ledger.count (fst (CSVReporter.generate_detailed_report analyzer))
     = (1 + sum_total_entries summary)%Z.
Proof.
  intros analyzer summary shown. subst analyzer summary shown.
  unfold process_files. rewrite process_files_result. cbn [snd].
  set (batch := yields (events (parse_multiple_files fs log_files encoding))).
  set (ops := map (add_of basename) batch).
  destruct (balanced_reachable ops) as (Ht & Hlc & _).
  assert (Hall : Forall (fun ed => negb (CSVReporter.reported ed) = false)
                        (added [] ops)).
  { unfold ops. rewrite added_of_adds. cbn [app].
    apply Forall_forall. intros ed Hin.
    apply in_map_iff in Hin as ([p e] & <- & Hin). cbn [fst snd].
    unfold batch in Hin. rewrite yields_parse_multiple_files in Hin.
    apply in_flat_map in Hin as (q & _ & Hin).
    apply in_map_iff in Hin as (e' & [= <- <-] & Hin).
    apply parse_file_yields_classified in Hin as (line & k & Hp).
    unfold CSVReporter.reported. cbn [ed_level].
    now rewrite (parse_line_reported _ _ _ Hp). }
  pose proof (filter_all_false _ _ Hall) as Hnone.
  pose proof (count_by_level (added [] ops)) as Hsum.
  unfold CSVReporter.reported in Hnone. rewrite Hnone in Hsum.
  cbn [get_summary fst sum_total_entries sum_level_counts].
  unfold DefaultDict.to_dict. unfold DefaultDict.get in Hlc.
  rewrite Ht, !Hlc. split; [rewrite Hsum; unfold Ledger.count; simpl; lia | ].
  rewrite detailed_rows_shape. cbn [fst].
  unfold Ledger.count in *. cbn [List.length]. rewrite length_map.
  rewrite !length_app. simpl in Hsum. lia.
Qed.

End Pipeline.

(** ** The two summary reports *)

Section Summaries.
Import CSVReporter.

Lemma write_step_line (f : string) (item : string * Dict.dict Z) :
  MarkdownSummary.write_step_counts f item
  = f ++ Tables.table_line (step_cells item).
Proof.
  destruct item as [s c].
  unfold MarkdownSummary.write_step_counts, MarkdownReporter.write,
    Tables.table_line, step_cells.
  cbn [fst snd map Str.join Tables.cell_text].
  repeat (first [rewrite append_assoc | rewrite append_nil_r
                | progress cbn [String.append]]).
  reflexivity.
Qed.

Lemma write_step_lines (items : list (string * Dict.dict Z)) :
  forall f,
    fold_left MarkdownSummary.write_step_counts items f
    = f ++ Str.join (map Tables.table_line (map step_cells items)).
Proof.
  induction items as [|i items IH]; intros f; simpl.
  - now rewrite append_nil_r.
  - now rewrite IH, write_step_line, append_assoc.
Qed.

(** The Markdown summary report shows the cells of the summary CSV report
    in the same order: after its opening lines comes the table of the
    CSV rows 4 to 7 (the level heading and the three levels) and, when
    the CSV report has step rows, the table of those rows under the
    heading "Errors by Step/Module". *)
Theorem md_summary_shows_csv_rows (now : string) (summary : Summary) :
  let rows := generate_summary_report summary in
  MarkdownSummary.generate_summary_report now summary
  = Tables.top now (sum_total_entries summary)
    ++ Tables.table (firstn 4 (skipn 3 rows)) ++ nl
    ++ match skipn 8 rows with
       | [] => EmptyString
       | _ :: _ =>
           "## Errors by Step/Module" ++ nl ++ nl
           ++ Tables.table (skipn 8 rows) ++ nl
       end.
Proof.
  intros rows. subst rows. rewrite summary_rows_shape.
  cbn [app skipn firstn].
  unfold MarkdownSummary.generate_summary_report.
  destruct (sum_step_counts summary) as [|i items] eqn:E.
  - unfold MarkdownSummary.write_level_count, MarkdownReporter.write,
      Tables.top, Tables.table, Tables.table_line, Tables.rule_line.
    cbn [fold_left map Str.join Tables.cell_text Tables.dashes
         String.length Nat.add].
    repeat (first [rewrite append_assoc | rewrite append_nil_r
                  | progress cbn [String.append]]).
    reflexivity.
  - rewrite write_step_lines.
    unfold MarkdownSummary.write_level_count, MarkdownReporter.write,
      Tables.top, Tables.table, Tables.table_line, Tables.rule_line.
    cbn [fold_left map Str.join Tables.cell_text Tables.dashes
         String.length Nat.add].
    repeat (first [rewrite append_assoc | rewrite append_nil_r
                  | progress cbn [String.append]]).
    reflexivity.
Qed.

End Summaries.
